(** * Order workflow of the storefront backend (routes/accountRoute.js)

    A shallow embedding of the Express route handlers of [accountRoute] and
    [orderRoute] over an explicit model of the three document collections
    they touch (Account, Product, Order).

    Modelling conventions.
    - A JavaScript number is an exact rational ([Q]); rounding of IEEE
      doubles is not modelled.  Equality of amounts is [Qeq] ([==]).
    - An ObjectId is a [string]; a collection is a finite map from ObjectId
      to the fields of the document.  A loaded document is the pair of its
      [_id] and its fields.
    - Every [await] on a database operation is one tick of a clock.  A
      [schedule] says, for each tick, whether the operation goes through,
      rejects (the driver throws an [Error]) or never completes because the
      process is interrupted; an operation that is rejected or cut off has
      had no effect on the store.  [calm] is the schedule of an undisturbed
      run.
    - [handle], [after] and [after_all] serve requests one at a time: a
      handler runs to its end before the next request is taken up.  What
      the event loop does with requests that overlap is followed on
      processes ([proc]), the form in which cancel-order and
      update-shipping are given a second time.
    - A handler returns the response it sent, or [None] when it finishes
      without sending one.
    - A request is one that has passed the authentication and role
      middleware, which are not modelled; neither are the payment URL
      builder (the response carries its arguments) and the rendering of the
      mail (the outbox carries its data). *)

From Stdlib Require Import QArith Lqa Ascii String.
From stdpp Require Import gmap strings list fin_maps infinite relations.

Local Open Scope string_scope.

(** ** Documents *)

Abbreviation oid := string.

Record doc (A : Type) := Doc { _id : oid; fields : A }.
Arguments Doc {A} _ _.
Arguments _id {A} _.
Arguments fields {A} _.

(** Modelled from the spec: the roles of an account and the status values
    of an order, enumerated by the Account and Order schemas, which are
    not among the sources.  The records below have the fields the handlers
    read and write. *)
Inductive Role := customer | admin | shipper.

Definition Role_eqb (a b : Role) : bool :=
  match a, b with
  | customer, customer | admin, admin | shipper, shipper => true
  | _, _ => false
  end.

Inductive Status := Pending | Paid | Shipping | Delivered | Canceled.

Definition Status_eqb (a b : Status) : bool :=
  match a, b with
  | Pending, Pending | Paid, Paid | Shipping, Shipping
  | Delivered, Delivered | Canceled, Canceled => true
  | _, _ => false
  end.

Module Account.
Record t := Make { email : string; balance : Q; role : Role }.
Definition credit (amount : Q) (a : t) : t :=
  {| email := email a; balance := balance a + amount; role := role a |}.
End Account.

Module Product.
Record t := Make { name : string; price : Q; quantity : Q }.
Definition add_quantity (delta : Q) (p : t) : t :=
  {| name := name p; price := price p; quantity := quantity p + delta |}.
Definition sub_quantity (delta : Q) (p : t) : t :=
  {| name := name p; price := price p; quantity := quantity p - delta |}.
End Product.

Module Item.
(** A line item as stored: a reference to a product and a quantity. *)
Record t := Make { product : oid; quantity : Q }.
End Item.

Module Order.
Record t := Make {
  account : oid;
  items : list Item.t;
  totalAmount : Q;
  status : Status;
  imageConfirmDelivered : option string
}.
Definition set_status (s : Status) (o : t) : t :=
  {| account := account o; items := items o; totalAmount := totalAmount o;
     status := s; imageConfirmDelivered := imageConfirmDelivered o |}.
Definition set_image (url : string) (o : t) : t :=
  {| account := account o; items := items o; totalAmount := totalAmount o;
     status := status o; imageConfirmDelivered := Some url |}.
End Order.

(** A line item after [populate("items.product")]: the reference is
    replaced by the referenced document, or by [null] ([None]) when no
    such document exists. *)
Module Populated.
Record item := Item { product : option (doc Product.t); quantity : Q }.
Record order := Order { document : doc Order.t; items : list item }.
End Populated.

(** ** The database and the world a handler runs in *)

Record db := Db {
  accounts : gmap oid Account.t;
  products : gmap oid Product.t;
  orders : gmap oid Order.t
}.

Definition with_accounts (m : gmap oid Account.t) (d : db) : db :=
  {| accounts := m; products := products d; orders := orders d |}.
Definition with_products (m : gmap oid Product.t) (d : db) : db :=
  {| accounts := accounts d; products := m; orders := orders d |}.
Definition with_orders (m : gmap oid Order.t) (d : db) : db :=
  {| accounts := accounts d; products := products d; orders := m |}.

Record formatted_item := FormattedItem {
  productName : string;
  fi_quantity : Q;
  fi_price : Q;
  fi_total : Q
}.

Record mail := Mail {
  mail_to : string;
  mail_orderId : oid;
  mail_refundAmount : Q;
  mail_items : list formatted_item
}.

Record world := World { store : db; outbox : list mail; clock : nat }.

(** [n] database operations later, nothing else changed. *)
Definition later (n : nat) (w : world) : world :=
  {| store := store w; outbox := outbox w; clock := n + clock w |}.

Inductive event := Proceed | Reject (msg : string) | Die.
Definition schedule := nat → event.

Definition calm : schedule := λ _, Proceed.
Definition dies_at (n : nat) : schedule :=
  λ i, if (i <? n)%nat then Proceed else Die.

Record exn := Error { message : string }.

Inductive result (A : Type) :=
  | Value (a : A)
  | Thrown (e : exn)
  | Halted.
Arguments Value {A} _.
Arguments Thrown {A} _.
Arguments Halted {A}.

(** ** The handler monad: schedule reader, world state, exceptions *)

Definition M (A : Type) : Type := schedule → world → result A * world.

Definition ret {A} (a : A) : M A := λ _ w, (Value a, w).

Definition bind {A B} (m : M A) (k : A → M B) : M B :=
  λ sch w,
    match m sch w with
    | (Value a, w') => k a sch w'
    | (Thrown e, w') => (Thrown e, w')
    | (Halted, w') => (Halted, w')
    end.

Definition throw {A} (e : exn) : M A := λ _ w, (Thrown e, w).

Definition try_catch {A} (body : M A) (handler : exn → M A) : M A :=
  λ sch w,
    match body sch w with
    | (Thrown e, w') => handler e sch w'
    | r => r
    end.

Global Instance M_ret : MRet M := @ret.
Global Instance M_bind : MBind M := λ A B k m, bind m k.

(** One awaited database operation.  A rejection or an interruption comes
    before the operation has had an effect on the store. *)
Definition await {A} (op : db → A * db) : M A :=
  λ sch w,
    match sch (clock w) with
    | Proceed =>
        let '(a, d) := op (store w) in
        (Value a, {| store := d; outbox := outbox w; clock := S (clock w) |})
    | Reject msg => (Thrown (Error msg), later 1 w)
    | Die => (Halted, w)
    end.

(** [transporter.sendMail] is not awaited; a failure is only logged. *)
Definition sendMail (m : mail) : M unit :=
  λ _ w, (Value (), {| store := store w; outbox := outbox w ++ [m];
                       clock := clock w |}).

(** [for (const x of l) body]: the body either leaves the handler with a
    value ([inl], a [return] inside the loop) or goes on to the next
    element with the updated loop variables ([inr]). *)
Fixpoint for_of {A S R} (l : list A) (body : A → S → M (R + S)) (s : S)
  : M (R + S) :=
  match l with
  | [] => ret (inr s)
  | x :: l' =>
      r ← body x s;
      match r with
      | inl v => ret (inl v)
      | inr s' => for_of l' body s'
      end
  end.

(** Reading a property of [null] throws a TypeError. *)
Definition null_property_message (prop : string) : string :=
  "Cannot read properties of null (reading '" +:+ prop +:+ "')".

Definition member {A} (o : option A) (prop : string) : M A :=
  match o with
  | Some a => ret a
  | None => throw (Error (null_property_message prop))
  end.

(** ** Model operations (mongoose) *)

Definition load {A} (m : gmap oid A) (id : oid) : option (doc A) :=
  Doc id <$> m !! id.

Definition Account_findById (id : oid) : M (option (doc Account.t)) :=
  await (λ d, (load (accounts d) id, d)).

(** [findOne({ role })]: the first document with that role, in the order
    the collection yields its documents. *)
Definition find_role (r : Role) (m : gmap oid Account.t)
  : option (doc Account.t) :=
  match list_find (λ kv, Role_eqb (Account.role kv.2) r = true)
                  (map_to_list m) with
  | Some (_, (id, a)) => Some (Doc id a)
  | None => None
  end.

Definition Account_findOne_role (r : Role) : M (option (doc Account.t)) :=
  await (λ d, (find_role r (accounts d), d)).

Definition Account_save (a : doc Account.t) : M unit :=
  await (λ d, ((), with_accounts (<[_id a := fields a]> (accounts d)) d)).

Definition Product_findById (id : oid) : M (option (doc Product.t)) :=
  await (λ d, (load (products d) id, d)).

Definition Product_save (p : doc Product.t) : M unit :=
  await (λ d, ((), with_products (<[_id p := fields p]> (products d)) d)).

Definition Order_findById (id : oid) : M (option (doc Order.t)) :=
  await (λ d, (load (orders d) id, d)).

Definition populate (d : db) (it : Item.t) : Populated.item :=
  {| Populated.product := load (products d) (Item.product it);
     Populated.quantity := Item.quantity it |}.

Definition Order_findById_populate (id : oid) : M (option Populated.order) :=
  await (λ d,
    ((λ o, {| Populated.document := o;
              Populated.items := populate d <$> Order.items (fields o) |})
       <$> load (orders d) id, d)).

Definition Order_save (o : doc Order.t) : M unit :=
  await (λ d, ((), with_orders (<[_id o := fields o]> (orders d)) d)).

Definition Order_find (keep : Order.t → bool) : M (list (doc Order.t)) :=
  await (λ d,
    ((λ kv, Doc kv.1 kv.2) <$>
       filter (λ kv, keep kv.2 = true) (map_to_list (orders d)), d)).

(** [new db.Order(...)]: the document gets an ObjectId no stored order has. *)
Definition new_order_id (d : db) : oid := fresh (dom (orders d)).

Definition new_Order : M oid := λ _ w, (Value (new_order_id (store w)), w).

(** ** Requests and responses *)

Module Cart.
(** A line of the request body of add-to-cart. *)
Record item := Item { product : oid; quantity : Q }.
End Cart.

Record upload := Upload { filename : string }.

Record payment_request := PaymentRequest {
  vnp_Amount : Q;
  vnp_TxnRef : oid;
  vnp_OrderInfo : string;
  vnp_ReturnUrl : string
}.

Inductive payload :=
  | Message (message : string)
  | ServerError (message : string) (error : string)
  | ProductNotFound (product : oid)
  | NotEnoughStock (name : string) (available requested : Q)
  | OrderCreated (orderId : oid) (vnpayResponse : payment_request)
  | ShippingUpdated (message : string) (orderId : oid)
  | DeliveryConfirmed (message : string) (orderId : oid) (imagePath : string)
  | Refunded (message : string) (refundAmount : Q)
  | AccountFound (account : doc Account.t)
  | OrderList (orders : list (doc Order.t)).

Inductive response :=
  | Json (code : nat) (body : payload)
  | Redirect (url : string).

Definition respond (r : response) : M (option response) := ret (Some r).

(** ** [encodeURIComponent] on UTF-8 text *)

Definition is_unreserved (c : ascii) : bool :=
  let n := N_of_ascii c in
  ((65 <=? n) && (n <=? 90) || (97 <=? n) && (n <=? 122)
   || (48 <=? n) && (n <=? 57))%N
  || bool_decide (c ∈ list_ascii_of_string "-_.!~*'()").

Definition hex_digit (n : N) : ascii :=
  if (n <? 10)%N then ascii_of_N (48 + n) else ascii_of_N (55 + n).

Fixpoint encodeURIComponent (s : string) : string :=
  match s with
  | EmptyString => EmptyString
  | String c s' =>
      if is_unreserved c then String c (encodeURIComponent s')
      else
        let n := N_of_ascii c in
        String "%" (String (hex_digit (n / 16)) (String (hex_digit (n mod 16))
          (encodeURIComponent s')))
  end.

(** ** accountRoute *)

Definition get_account (id : oid) : M (option response) :=
  try_catch
    (account ← Account_findById id;
     match account with
     | None => respond (Json 404 (Message "Account not found"))
     | Some account => respond (Json 200 (AccountFound account))
     end)
    (λ error, respond (Json 500 (Message (message error)))).

(** ** orderRoute: add-to-cart *)

Definition deep_link : string := "exp://192.168.1.4:8081/--/cart".

Definition cart_step (item : Cart.item) (acc : Q * list Item.t)
  : M (response + Q * list Item.t) :=
  let '(totalAmount, orderItems) := acc in
  product ← Product_findById (Cart.product item);
  match product with
  | None => ret (inl (Json 404 (ProductNotFound (Cart.product item))))
  | Some product =>
      if Qlt_le_dec (Product.quantity (fields product)) (Cart.quantity item)
      then ret (inl (Json 400
             (NotEnoughStock (Product.name (fields product))
                (Product.quantity (fields product)) (Cart.quantity item))))
      else ret (inr
             ((totalAmount
                + Cart.quantity item * Product.price (fields product))%Q,
              (orderItems
                 ++ [Item.Make (_id product) (Cart.quantity item)])%list))
  end.

Definition add_to_cart (account : option oid) (items : option (list Cart.item))
  : M (option response) :=
  try_catch
    (match account, items with
     | Some account, Some ((_ :: _) as items) =>
         accountDetails ← Account_findById account;
         match accountDetails with
         | None => respond (Json 404 (Message "Account not found."))
         | Some _ =>
             r ← for_of items cart_step (0%Q, []);
             match r with
             | inl early => respond early
             | inr (totalAmount, orderItems) =>
                 newId ← new_Order;
                 let newOrder :=
                   Doc newId
                     {| Order.account := account;
                        Order.items := orderItems;
                        Order.totalAmount := totalAmount;
                        Order.status := Pending;
                        Order.imageConfirmDelivered := None |} in
                 _ ← Order_save newOrder;
                 let vnpayResponse :=
                   {| vnp_Amount := totalAmount;
                      vnp_TxnRef := newId;
                      vnp_OrderInfo := "Thanh toan don hang " +:+ newId;
                      vnp_ReturnUrl := deep_link +:+ "?orderId=" +:+ newId |} in
                 respond (Json 201 (OrderCreated newId vnpayResponse))
             end
         end
     | _, _ =>
         respond (Json 400
           (Message "An order must contain at least one product."))
     end)
    (λ error, respond (Json 500 (ServerError "Server error." (message error)))).

(** ** orderRoute: confirm-payment *)

Definition reduce_quantity (item : Populated.item) (_ : unit)
  : M (response + unit) :=
  ref ← member (Populated.product item) "_id";
  product ← Product_findById (_id ref);
  match product with
  | Some product =>
      _ ← Product_save
            (Doc (_id product)
               (Product.sub_quantity (Populated.quantity item) (fields product)));
      ret (inr ())
  | None => ret (inr ())
  end.

Definition success_url (orderId : oid) : string :=
  deep_link +:+ "?status=success&orderId=" +:+ orderId.

Definition error_url (msg : string) : string :=
  deep_link +:+ "?status=error&message=" +:+ msg.

(** The [try] block of confirm-payment. *)
Definition confirm_payment_try (orderId : oid)
    (vnp_ResponseCode : option string) : M (option response) :=
  if bool_decide (vnp_ResponseCode ≠ Some "00") then
    respond (Redirect (error_url "Payment%20unsuccessful"))
  else
    order ← Order_findById_populate orderId;
    match order with
    | None => respond (Redirect (error_url "Order%20not%20found"))
    | Some order =>
        let d := Populated.document order in
        if negb (Status_eqb (Order.status (fields d)) Pending) then
          respond (Redirect (error_url "Order%20already%20processed"))
        else
          _ ← Order_save (Doc (_id d) (Order.set_status Paid (fields d)));
          _ ← for_of (Populated.items order) reduce_quantity ();
          respond (Redirect (success_url orderId))
    end.

(** Its [catch] block. *)
Definition confirm_payment_catch (error : exn) : M (option response) :=
  respond (Redirect (error_url (encodeURIComponent (message error)))).

Definition confirm_payment (orderId : oid) (vnp_ResponseCode : option string)
  : M (option response) :=
  try_catch (confirm_payment_try orderId vnp_ResponseCode)
            confirm_payment_catch.

(** ** orderRoute: update-shipping, confirm-delivery *)

Definition update_shipping (orderId : oid) : M (option response) :=
  try_catch
    (order ← Order_findById orderId;
     match order with
     | None => respond (Json 404 (Message "Order not found."))
     | Some order =>
         if negb (Status_eqb (Order.status (fields order)) Paid) then
           respond (Json 400
             (Message "Only paid orders can be marked as shipping."))
         else
           _ ← Order_save
                 (Doc (_id order) (Order.set_status Shipping (fields order)));
           respond (Json 200
             (ShippingUpdated "Order status updated to Shipping." (_id order)))
     end)
    (λ error, respond (Json 500 (ServerError "Server error." (message error)))).

Definition baseUrl : string := "https://mma301-project-be.onrender.com".

Definition confirm_delivery (orderId : oid) (file : option upload)
  : M (option response) :=
  try_catch
    (order ← Order_findById orderId;
     match order with
     | None => respond (Json 404 (Message "Order not found."))
     | Some order =>
         if negb (Status_eqb (Order.status (fields order)) Shipping) then
           respond (Json 400
             (Message "Only shipping orders can be confirmed as delivered."))
         else
           match file with
           | None =>
               respond (Json 400
                 (Message "Delivery confirmation image is required."))
           | Some file =>
               let image :=
                 baseUrl +:+ "/uploads/deliveryConfirmation/" +:+ filename file in
               _ ← Order_save
                     (Doc (_id order)
                        (Order.set_status Delivered
                           (Order.set_image image (fields order))));
               respond (Json 200
                 (DeliveryConfirmed "Order delivery confirmed." (_id order)
                    (baseUrl +:+ image)))
           end
     end)
    (λ error, respond (Json 500 (ServerError "Server error." (message error)))).

(** ** orderRoute: orders of an account, add-balance *)

Definition orders_of_account (id : oid) : M (option response) :=
  try_catch
    (found ← Order_find (λ o, bool_decide (Order.account o = id));
     respond (Json 200 (OrderList found)))
    (λ error, respond (Json 500 (ServerError "Server error." (message error)))).

(** [!amount || amount <= 0] *)
Definition bad_amount (amount : option Q) : bool :=
  match amount with
  | None => true
  | Some a => Qle_bool a 0
  end.

Definition add_balance (account : option oid) (amount : option Q)
  : M (option response) :=
  try_catch
    (match account, amount with
     | Some account, Some a =>
         if bad_amount amount then respond (Json 400 (Message "Invalid request."))
         else
           accountDetails ← Account_findById account;
           match accountDetails with
           | None => respond (Json 404 (Message "Account not found."))
           | Some accountDetails =>
               _ ← Account_save
                     (Doc (_id accountDetails)
                        (Account.credit a (fields accountDetails)));
               respond (Json 200 (Message "Balance added successfully."))
           end
     | _, _ => respond (Json 400 (Message "Invalid request."))
     end)
    (λ error, respond (Json 500 (ServerError "Server error." (message error)))).

(** ** orderRoute: cancel-order *)

(** [x || 0] on a number. *)
Definition or_zero (x : Q) : Q := if Qeq_bool x 0 then 0%Q else x.

Definition format_item (item : Populated.item) : formatted_item :=
  match Populated.product item with
  | Some p =>
      {| productName :=
           if bool_decide (Product.name (fields p) = "") then "Unknown Product"
           else Product.name (fields p);
         fi_quantity := Populated.quantity item;
         fi_price := or_zero (Product.price (fields p));
         fi_total :=
           or_zero (Populated.quantity item * Product.price (fields p)) |}
  | None =>
      {| productName := "Unknown Product";
         fi_quantity := Populated.quantity item;
         fi_price := 0;
         fi_total := 0 |}
  end.

Definition refund_of (o : Order.t) : Q := Order.totalAmount o * (1 # 2).

(** The body of the loop over the line items of cancel-order.  It ends in
    [return res.status(200).json(...)], so the handler is left during the
    first turn of the loop. *)
Definition restore_quantity (orderId : oid) (refundAmount : Q)
    (account : doc Account.t) (all_items : list Populated.item)
    (item : Populated.item) (order : doc Order.t)
  : M (response + doc Order.t) :=
  ref ← member (Populated.product item) "_id";
  product ← Product_findById (_id ref);
  _ ← match product with
      | Some product =>
          Product_save
            (Doc (_id product)
               (Product.add_quantity (Populated.quantity item) (fields product)))
      | None => ret ()
      end;
  let order := Doc (_id order) (Order.set_status Canceled (fields order)) in
  _ ← Order_save order;
  _ ← sendMail
        {| mail_to := Account.email (fields account);
           mail_orderId := orderId;
           mail_refundAmount := refundAmount;
           mail_items := format_item <$> all_items |};
  ret (inl (Json 200
    (Refunded
       "Đơn hàng đã được hủy và hoàn tiền 50%. Số lượng sản phẩm đã được cập nhật vào kho."
       refundAmount))).

Definition cancel_order (orderId : oid) : M (option response) :=
  try_catch
    (order ← Order_findById_populate orderId;
     match order with
     | None => respond (Json 404 (Message "Không tìm thấy đơn hàng"))
     | Some order =>
         let d := Populated.document order in
         if negb (Status_eqb (Order.status (fields d)) Paid) then
           respond (Json 400 (Message "Only paid orders can be canceled."))
         else
           let refundAmount := refund_of (fields d) in
           account ← Account_findById (Order.account (fields d));
           account ← member account "balance";
           let account :=
             Doc (_id account) (Account.credit refundAmount (fields account)) in
           _ ← Account_save account;
           adminAccount ← Account_findOne_role admin;
           _ ← match adminAccount with
               | Some adminAccount =>
                   Account_save
                     (Doc (_id adminAccount)
                        (Account.credit refundAmount (fields adminAccount)))
               | None => ret ()
               end;
           r ← for_of (Populated.items order)
                 (restore_quantity orderId refundAmount account
                    (Populated.items order)) d;
           match r with
           | inl sent => respond sent
           | inr _ => ret None
           end
     end)
    (λ error, respond (Json 500 (ServerError "Lỗi máy chủ" (message error)))).

(** ** orderRoute: shipper-orders *)

Definition for_shipper (o : Order.t) : bool :=
  match Order.status o with
  | Paid | Shipping | Delivered => true
  | Pending | Canceled => false
  end.

(** The documents come back in the order the store yields them; the sort
    keys of the query (status, then creation time) are not part of this
    model. *)
Definition shipper_orders : M (option response) :=
  try_catch
    (found ← Order_find for_shipper;
     respond (Json 200 (OrderList found)))
    (λ error, respond (Json 500 (ServerError "Server error." (message error)))).

(** ** The router *)

(** A request that reached a handler.  An optional field is [None] when the
    request lacks it; for the [account] and [items] of a body, [None] also
    stands for any other falsy value (an ObjectId is never the empty
    string). *)
Inductive request :=
  | GetAccount (id : oid)
  | AddToCart (account : option oid) (items : option (list Cart.item))
  | ConfirmPayment (orderId : oid) (vnp_ResponseCode : option string)
  | UpdateShipping (orderId : oid)
  | ConfirmDelivery (orderId : oid) (file : option upload)
  | OrdersOfAccount (id : oid)
  | AddBalance (account : option oid) (amount : option Q)
  | CancelOrder (orderId : oid)
  | ShipperOrders.

Definition handle (req : request) : M (option response) :=
  match req with
  | GetAccount id => get_account id
  | AddToCart account items => add_to_cart account items
  | ConfirmPayment orderId code => confirm_payment orderId code
  | UpdateShipping orderId => update_shipping orderId
  | ConfirmDelivery orderId file => confirm_delivery orderId file
  | OrdersOfAccount id => orders_of_account id
  | AddBalance account amount => add_balance account amount
  | CancelOrder orderId => cancel_order orderId
  | ShipperOrders => shipper_orders
  end.

(** * Vocabulary of the properties *)

(** ** Outcomes of a run *)

(** What a run may end in: a value satisfying [P], an exception, or an
    interruption, which only a schedule with a [Die] event causes. *)
Definition outcome {A} (P : A → Prop) (sch : schedule) (r : result A) : Prop :=
  match r with
  | Value a => P a
  | Thrown _ => True
  | Halted => ∃ n, sch n = Die
  end.

(** [triple m R P]: whatever the schedule, [m] takes a world to one related
    to it by [R], and a value it returns satisfies [P]. *)
Definition triple {A} (m : M A) (R : relation world) (P : A → Prop) : Prop :=
  ∀ sch w, R w (m sch w).2 ∧ outcome P sch (m sch w).1.

Definition anywhere : relation world := λ _ _, True.

Definition same_store : relation world := λ w w', store w' = store w.

Definition same_orders : relation world :=
  λ w w', orders (store w') = orders (store w).

Global Instance anywhere_preorder : PreOrder anywhere.
Proof. by split. Qed.

Global Instance same_store_preorder : PreOrder same_store.
Proof.
  split; [done|]. unfold same_store. intros x y z H1 H2. congruence.
Qed.

Global Instance same_orders_preorder : PreOrder same_orders.
Proof.
  split; [done|]. unfold same_orders. intros x y z H1 H2. congruence.
Qed.

(** An undisturbed run starts from a database with nothing sent yet. *)
Definition start (d : db) : world := {| store := d; outbox := []; clock := 0 |}.

(** The world a request leaves behind, and the world after a sequence of
    requests, each served under its own schedule, one at a time. *)
Definition after (req : request) (sch : schedule) (w : world) : world :=
  (handle req sch w).2.

Fixpoint after_all (rs : list (request * schedule)) (w : world) : world :=
  match rs with
  | [] => w
  | (req, sch) :: rs => after_all rs (after req sch w)
  end.

(** ** confirm-payment *)

(** The redirects confirm-payment issues without an exception. *)
Definition confirm_payment_urls (orderId : oid) : list string :=
  [ success_url orderId;
    error_url "Payment%20unsuccessful";
    error_url "Order%20not%20found";
    error_url "Order%20already%20processed" ].

(** Every line item refers to a product of the map. *)
Definition all_in_stock (m : gmap oid Product.t) (items : list Item.t) : Prop :=
  Forall (λ it, is_Some (m !! Item.product it)) items.

(** The effect of one turn of the stock loop of confirm-payment on the
    products: the referenced product, when there is one, loses the ordered
    quantity. *)
Definition take_stock (m : gmap oid Product.t) (it : Item.t)
  : gmap oid Product.t :=
  match m !! Item.product it with
  | Some p =>
      <[Item.product it := Product.sub_quantity (Item.quantity it) p]> m
  | None => m
  end.

Definition with_stock (q : Q) (x : Product.t) : Product.t :=
  {| Product.name := Product.name x; Product.price := Product.price x;
     Product.quantity := q |}.

(** The stock of product [p] after the turns for [items], from stock [q]. *)
Definition stock_after (p : oid) (items : list Item.t) (q : Q) : Q :=
  foldl (λ q it, if decide (Item.product it = p) then q - Item.quantity it
                 else q)%Q q items.

(** The quantity of product [p] ordered by [items]. *)
Definition ordered_qty (p : oid) (items : list Item.t) : Q :=
  foldr (λ it acc, if decide (Item.product it = p) then Item.quantity it + acc
                   else acc)%Q 0%Q items.

(** The world right after confirm-payment has saved the order as Paid. *)
Definition paid_world (orderId : oid) (o : Order.t) (w : world) : world :=
  {| store :=
       with_orders (<[orderId := Order.set_status Paid o]> (orders (store w)))
         (store w);
     outbox := outbox w; clock := 2 + clock w |}.

(** ** cancel-order *)

(** The accounts after the two credits of cancel-order: the owner [a] of
    the order, then the admin account [findOne] yields, if there is one. *)
Definition refunded_accounts (refund : Q) (owner : oid) (a : Account.t)
    (m : gmap oid Account.t) : gmap oid Account.t :=
  let m1 := <[owner := Account.credit refund a]> m in
  match find_role admin m1 with
  | Some adminAccount =>
      <[_id adminAccount := Account.credit refund (fields adminAccount)]> m1
  | None => m1
  end.

(** The world when cancel-order enters its loop over the line items: four
    database operations later, five when an admin account was saved. *)
Definition refunded_world (o : Order.t) (a : Account.t) (w : world) : world :=
  {| store :=
       with_accounts
         (refunded_accounts (refund_of o) (Order.account o) a
            (accounts (store w)))
         (store w);
     outbox := outbox w;
     clock :=
       (if find_role admin
             (<[Order.account o := Account.credit (refund_of o) a]>
                (accounts (store w)))
        is Some _ then 5 else 4) + clock w |}.

Definition refund_mail (orderId : oid) (o : Order.t) (a : Account.t) (d : db)
  : mail :=
  {| mail_to := Account.email a;
     mail_orderId := orderId;
     mail_refundAmount := refund_of o;
     mail_items := format_item <$> (populate d <$> Order.items o) |}.

Definition refund_message : string :=
  "Đơn hàng đã được hủy và hoàn tiền 50%. Số lượng sản phẩm đã được cập nhật vào kho.".

(** ** The workflow *)

(** The status changes of the workflow, with the handler that makes each. *)
Inductive performs : request → Status → Status → Prop :=
  | pay orderId code :
      performs (ConfirmPayment orderId code) Pending Paid
  | ship orderId :
      performs (UpdateShipping orderId) Paid Shipping
  | deliver orderId file :
      performs (ConfirmDelivery orderId file) Shipping Delivered
  | cancel orderId :
      performs (CancelOrder orderId) Paid Canceled.

Definition forward (s s' : Status) : Prop := ∃ req, performs req s s'.

Definition creates (req : request) : Prop :=
  ∃ account items, req = AddToCart account items.

(** How far along the workflow a status is. *)
Definition stage (s : Status) : nat :=
  match s with
  | Pending => 0
  | Paid => 1
  | Shipping | Canceled => 2
  | Delivered => 3
  end.

(** What a request may do to the stored orders: nothing, one status
    change of the workflow on one order, or the creation of a Pending
    order. *)
Definition order_effect (req : request) (m m' : gmap oid Order.t) : Prop :=
  m' = m
  ∨ (∃ id o o', m !! id = Some o ∧ m' = <[id := o']> m
       ∧ performs req (Order.status o) (Order.status o'))
  ∨ (∃ id o', creates req ∧ m !! id = None ∧ m' = <[id := o']> m
       ∧ Order.status o' = Pending).

(** ** add-to-cart *)

(** A line of a cart is valid when its product exists and the requested
    quantity does not exceed the stock. *)
Definition cart_valid (m : gmap oid Product.t) (it : Cart.item) : Prop :=
  ∃ p, m !! Cart.product it = Some p
     ∧ (Cart.quantity it <= Product.quantity p)%Q.

Definition price_of (m : gmap oid Product.t) (id : oid) : Q :=
  from_option Product.price 0%Q (m !! id).

(** The sum over the lines of product price times requested quantity. *)
Fixpoint cart_total (m : gmap oid Product.t) (items : list Cart.item) : Q :=
  match items with
  | [] => 0
  | it :: items =>
      price_of m (Cart.product it) * Cart.quantity it + cart_total m items
  end%Q.

(** The total as the loop of add-to-cart accumulates it. *)
Definition running_total (m : gmap oid Product.t) (items : list Cart.item)
    (totalAmount : Q) : Q :=
  foldl (λ t it, t + Cart.quantity it * price_of m (Cart.product it))%Q
    totalAmount items.

Definition line_item (it : Cart.item) : Item.t :=
  {| Item.product := Cart.product it; Item.quantity := Cart.quantity it |}.

(** ** A sample shop *)

Module Sample.
Definition ann : Account.t :=
  {| Account.email := "ann@example.com"; Account.balance := 0;
     Account.role := customer |}.
Definition root : Account.t :=
  {| Account.email := "root@example.com"; Account.balance := 5;
     Account.role := admin |}.

Definition soap : Product.t :=
  {| Product.name := "Soap"; Product.price := 10; Product.quantity := 5 |}.
Definition serum : Product.t :=
  {| Product.name := "Serum"; Product.price := 3; Product.quantity := 7 |}.

(** Two soaps and three serums. *)
Definition basket : list Item.t :=
  [ {| Item.product := "p1"; Item.quantity := 2 |};
    {| Item.product := "p2"; Item.quantity := 3 |} ].

(** Line items whose first product, [p9], is not in the shop. *)
Definition gone : list Item.t :=
  [ {| Item.product := "p9"; Item.quantity := 1 |};
    {| Item.product := "p2"; Item.quantity := 3 |} ].

Definition order (items : list Item.t) (total : Q) (s : Status) : Order.t :=
  {| Order.account := "a1"; Order.items := items; Order.totalAmount := total;
     Order.status := s; Order.imageConfirmDelivered := None |}.

(** [o1] is awaiting payment and [o2] is paid, both for the basket; [o3]
    asks for more soap than the shop has; [o4] and [o5] start with the
    line whose product is gone. *)
Definition shop : db :=
  {| accounts := {[ "a1" := ann; "a2" := root ]};
     products := {[ "p1" := soap; "p2" := serum ]};
     orders :=
       {[ "o1" := order basket 29 Pending;
          "o2" := order basket 29 Paid;
          "o3" := order [ {| Item.product := "p1"; Item.quantity := 8 |} ]
                    80 Pending;
          "o4" := order gone 9 Pending;
          "o5" := order gone 9 Paid ]} |}.

Definition cart : list Cart.item :=
  [ {| Cart.product := "p1"; Cart.quantity := 2 |};
    {| Cart.product := "p2"; Cart.quantity := 3 |} ].
End Sample.

(** * Requests served concurrently *)

(** Express serves the requests of all clients on one thread.  A handler
    runs until it awaits a database operation; it is resumed when the
    operation has completed, and in between the handlers of other requests
    run.  To follow such runs a handler is also given as a process: the
    operations it awaits, one after the other, and what it does with the
    result of each. *)
Inductive proc (A : Type) : Type :=
  | Returned (a : A)
  | Raised (e : exn)
  | Awaiting {X : Type} (op : db → X * db)
      (resume : X → proc A) (rejected : exn → proc A)
  | Sending (m : mail) (next : proc A).
Arguments Returned {A} _.
Arguments Raised {A} _.
Arguments Awaiting {A X} _ _ _.
Arguments Sending {A} _ _.

Fixpoint pbind {A B} (p : proc A) (k : A → proc B) : proc B :=
  match p with
  | Returned a => k a
  | Raised e => Raised e
  | Awaiting op resume rejected =>
      Awaiting op (λ x, pbind (resume x) k) (λ e, pbind (rejected e) k)
  | Sending m next => Sending m (pbind next k)
  end.

(** [try { p } catch (error) { handler error }] *)
Fixpoint ptry {A} (p : proc A) (handler : exn → proc A) : proc A :=
  match p with
  | Returned a => Returned a
  | Raised e => handler e
  | Awaiting op resume rejected =>
      Awaiting op (λ x, ptry (resume x) handler)
        (λ e, ptry (rejected e) handler)
  | Sending m next => Sending m (ptry next handler)
  end.

Global Instance proc_ret : MRet proc := @Returned.
Global Instance proc_bind : MBind proc := λ A B k p, pbind p k.

Definition pawait {X} (op : db → X * db) : proc X :=
  Awaiting op Returned Raised.

Definition psend (m : mail) : proc unit := Sending m (Returned ()).

Definition pmember {A} (o : option A) (prop : string) : proc A :=
  match o with
  | Some a => Returned a
  | None => Raised (Error (null_property_message prop))
  end.

Fixpoint pfor_of {A S R} (l : list A) (body : A → S → proc (R + S)) (s : S)
  : proc (R + S) :=
  match l with
  | [] => Returned (inr s)
  | x :: l' =>
      r ← body x s;
      match r with
      | inl v => Returned (inl v)
      | inr s' => pfor_of l' body s'
      end
  end.

(** A process served alone, under a schedule: the handler it stands for. *)
Fixpoint run {A} (p : proc A) : M A :=
  match p with
  | Returned a => ret a
  | Raised e => throw e
  | Awaiting op resume rejected =>
      λ sch w,
        match sch (clock w) with
        | Proceed =>
            let '(x, d) := op (store w) in
            run (resume x) sch
              {| store := d; outbox := outbox w; clock := S (clock w) |}
        | Reject msg => run (rejected (Error msg)) sch (later 1 w)
        | Die => (Halted, w)
        end
  | Sending m next =>
      λ sch w,
        run next sch
          {| store := store w; outbox := outbox w ++ [m]; clock := clock w |}
  end.

(** A process stands for a handler when, served alone, it does under
    every schedule what the handler does. *)
Definition agrees {A} (p : proc A) (m : M A) : Prop :=
  ∀ sch w, run p sch w = m sch w.

(** ** update-shipping and cancel-order as processes *)

Definition update_shipping_process (orderId : oid) : proc (option response) :=
  ptry
    (order ← pawait (λ d, (load (orders d) orderId, d));
     match order with
     | None => Returned (Some (Json 404 (Message "Order not found.")))
     | Some order =>
         if negb (Status_eqb (Order.status (fields order)) Paid) then
           Returned (Some (Json 400
             (Message "Only paid orders can be marked as shipping.")))
         else
           _ ← pawait (λ d,
                 ((), with_orders
                        (<[_id order :=
                             Order.set_status Shipping (fields order)]>
                           (orders d)) d));
           Returned (Some (Json 200
             (ShippingUpdated "Order status updated to Shipping." (_id order))))
     end)
    (λ error,
       Returned (Some (Json 500 (ServerError "Server error." (message error))))).

Definition restore_quantity_process (orderId : oid) (refundAmount : Q)
    (account : doc Account.t) (all_items : list Populated.item)
    (item : Populated.item) (order : doc Order.t)
  : proc (response + doc Order.t) :=
  ref ← pmember (Populated.product item) "_id";
  product ← pawait (λ d, (load (products d) (_id ref), d));
  _ ← match product with
      | Some product =>
          pawait (λ d,
            ((), with_products
                   (<[_id product :=
                        Product.add_quantity (Populated.quantity item)
                          (fields product)]> (products d)) d))
      | None => Returned ()
      end;
  let order := Doc (_id order) (Order.set_status Canceled (fields order)) in
  _ ← pawait (λ d,
        ((), with_orders (<[_id order := fields order]> (orders d)) d));
  _ ← psend
        {| mail_to := Account.email (fields account);
           mail_orderId := orderId;
           mail_refundAmount := refundAmount;
           mail_items := format_item <$> all_items |};
  Returned (inl (Json 200
    (Refunded
       "Đơn hàng đã được hủy và hoàn tiền 50%. Số lượng sản phẩm đã được cập nhật vào kho."
       refundAmount))).

Definition cancel_order_process (orderId : oid) : proc (option response) :=
  ptry
    (order ← pawait (λ d,
       ((λ o, {| Populated.document := o;
                 Populated.items := populate d <$> Order.items (fields o) |})
          <$> load (orders d) orderId, d));
     match order with
     | None => Returned (Some (Json 404 (Message "Không tìm thấy đơn hàng")))
     | Some order =>
         let d := Populated.document order in
         if negb (Status_eqb (Order.status (fields d)) Paid) then
           Returned (Some (Json 400
             (Message "Only paid orders can be canceled.")))
         else
           let refundAmount := refund_of (fields d) in
           account ← pawait (λ s,
             (load (accounts s) (Order.account (fields d)), s));
           account ← pmember account "balance";
           let account :=
             Doc (_id account) (Account.credit refundAmount (fields account)) in
           _ ← pawait (λ s,
                 ((), with_accounts
                        (<[_id account := fields account]> (accounts s)) s));
           adminAccount ← pawait (λ s, (find_role admin (accounts s), s));
           _ ← match adminAccount with
               | Some adminAccount =>
                   pawait (λ s,
                     ((), with_accounts
                            (<[_id adminAccount :=
                                 Account.credit refundAmount
                                   (fields adminAccount)]> (accounts s)) s))
               | None => Returned ()
               end;
           r ← pfor_of (Populated.items order)
                 (restore_quantity_process orderId refundAmount account
                    (Populated.items order)) d;
           match r with
           | inl sent => Returned (Some sent)
           | inr _ => Returned None
           end
     end)
    (λ error,
       Returned (Some (Json 500 (ServerError "Lỗi máy chủ" (message error))))).

(** ** The event loop *)

(** A process run up to the operation it awaits next, or to its end; the
    mails on the way are handed to the transporter. *)
Fixpoint upto {A} (p : proc A) (out : list mail) : proc A * list mail :=
  match p with
  | Sending m next => upto next (out ++ [m])
  | _ => (p, out)
  end.

(** The requests being served, each run up to the operation it awaits. *)
Definition pool := list (proc (option response)).

(** One turn of the event loop: the operation the [i]-th handler awaits
    completes, and the handler runs on to the next operation it awaits.
    The runs followed here are undisturbed: every operation goes through. *)
Definition turn (i : nat) (ps : pool) (w : world) : pool * world :=
  match ps !! i with
  | Some (Awaiting op resume _) =>
      let '(x, d) := op (store w) in
      let '(p, out) := upto (resume x) (outbox w) in
      (<[i := p]> ps, {| store := d; outbox := out; clock := S (clock w) |})
  | _ => (ps, w)
  end.

(** The pool and the world after the turns of [turns], and the worlds gone
    through on the way. *)
Fixpoint served (turns : list nat) (ps : pool) (w : world) : pool * world :=
  match turns with
  | [] => (ps, w)
  | i :: turns => let '(ps', w') := turn i ps w in served turns ps' w'
  end.

Fixpoint serve (turns : list nat) (ps : pool) (w : world) : list world :=
  match turns with
  | [] => [w]
  | i :: turns => w :: serve turns (turn i ps w).1 (turn i ps w).2
  end.

(** The status of an order in each of the worlds of a run. *)
Definition history (id : oid) (ws : list world) : list (option Status) :=
  (λ w, Order.status <$> orders (store w) !! id) <$> ws.

(** The claim of the workflow on a run: from one world to the next the
    status of a stored order stays as it is or moves by one of the four
    changes. *)
Definition forward_only (ws : list world) : Prop :=
  ∀ id k w w' o o',
    ws !! k = Some w → ws !! S k = Some w' →
    orders (store w) !! id = Some o → orders (store w') !! id = Some o' →
    Order.status o' = Order.status o
    ∨ forward (Order.status o) (Order.status o').

(** ** A race between cancel-order and update-shipping *)

Module Race.
(** The shipper marks [o2] as shipping while its owner cancels it. *)
Definition requests : pool :=
  [ cancel_order_process "o2"; update_shipping_process "o2" ].

(** cancel-order loads the order; update-shipping loads it and saves it;
    cancel-order goes on with its seven operations. *)
Definition turns : list nat := [0; 1; 1; 0; 0; 0; 0; 0; 0; 0]%nat.
End Race.

(** * Vocabulary of the further properties *)

(** [hoare Pre m R Post]: from a world satisfying [Pre], whatever the
    schedule, [m] leads to a world related to it by [R], and a value it
    returns satisfies [Post] in that world. *)
Definition hoare {A} (Pre : world → Prop) (m : M A) (R : relation world)
    (Post : world → A → Prop) : Prop :=
  ∀ sch w, Pre w →
    R w (m sch w).2 ∧ outcome (Post (m sch w).2) sch (m sch w).1.

(** A run that ends without an uncaught exception. *)
Definition settled {A} (P : A → Prop) (sch : schedule) (r : result A) : Prop :=
  match r with
  | Value a => P a
  | Thrown _ => False
  | Halted => ∃ n, sch n = Die
  end.

(** Maps with the same keys whose values agree up to [same]. *)
Definition kept {A} (same : relation A) (m m' : gmap oid A) : Prop :=
  ∀ id, option_Forall2 same (m !! id) (m' !! id).

Definition same_product (p p' : Product.t) : Prop :=
  Product.name p' = Product.name p ∧ Product.price p' = Product.price p.

Definition same_account (a a' : Account.t) : Prop :=
  Account.email a' = Account.email a ∧ Account.role a' = Account.role a.

(** The catalogue and the accounts keep their documents, names, prices,
    addresses and roles. *)
Definition steady : relation world :=
  λ w w',
    kept same_product (products (store w)) (products (store w'))
    ∧ kept same_account (accounts (store w)) (accounts (store w')).

Definition same_outbox : relation world := λ w w', outbox w' = outbox w.

Definition quiet : relation world := λ w w', steady w w' ∧ same_outbox w w'.

(** What a handler may write of a stored order: the status, and with the
    status Delivered the delivery image. *)
Definition rewrites (o o' : Order.t) : Prop :=
  Order.account o' = Order.account o
  ∧ Order.items o' = Order.items o
  ∧ Order.totalAmount o' = Order.totalAmount o
  ∧ (Order.imageConfirmDelivered o' = Order.imageConfirmDelivered o
     ∨ Order.status o' = Delivered).

(** What a request may write to the stored orders. *)
Definition order_write (req : request) (m m' : gmap oid Order.t) : Prop :=
  m' = m
  ∨ (∃ id o o', m !! id = Some o ∧ m' = <[id := o']> m
       ∧ performs req (Order.status o) (Order.status o') ∧ rewrites o o')
  ∨ (∃ id o', creates req ∧ m !! id = None ∧ m' = <[id := o']> m).

Definition terminal (s : Status) : Prop := s = Delivered ∨ s = Canceled.

(** Every stored order has an owner among the accounts and at least one
    line item. *)
Definition well_formed (d : db) : Prop :=
  map_Forall
    (λ _ o, is_Some (accounts d !! Order.account o) ∧ Order.items o ≠ [])
    (orders d).

(** The response of the [catch] block of the handler serving a request,
    for an exception with message [msg]. *)
Definition failure (req : request) (msg : string) : response :=
  match req with
  | GetAccount _ => Json 500 (Message msg)
  | ConfirmPayment _ _ => Redirect (error_url (encodeURIComponent msg))
  | CancelOrder _ => Json 500 (ServerError "Lỗi máy chủ" msg)
  | _ => Json 500 (ServerError "Server error." msg)
  end.

(** The requests that pass the checks their handler makes before its first
    database operation. *)
Definition reaches_database (req : request) : bool :=
  match req with
  | AddToCart (Some _) (Some (_ :: _)) => true
  | AddToCart _ _ => false
  | ConfirmPayment _ code => bool_decide (code = Some "00")
  | AddBalance (Some _) (Some a) => negb (Qle_bool a 0)
  | AddBalance _ _ => false
  | _ => true
  end.

(** A schedule whose first event is a rejection. *)
Definition rejects_first (msg : string) : schedule :=
  λ n, if decide (n = 0%nat) then Reject msg else Proceed.

(** ** A depot run by its administrator *)

Module Scene.
Definition boss : Account.t :=
  {| Account.email := "boss@example.com"; Account.balance := 0;
     Account.role := admin |}.

(** An order for the basket of the sample shop. *)
Definition basket_of (account : oid) (s : Status) : Order.t :=
  {| Order.account := account; Order.items := Sample.basket;
     Order.totalAmount := 29; Order.status := s;
     Order.imageConfirmDelivered := None |}.

(** [o6] is a Paid order of the administrator, the only account; [o7] is a
    Paid order whose owner is not among the accounts; [o8] is on its way
    and [o9] has been delivered. *)
Definition depot : db :=
  {| accounts := {[ "a3" := boss ]};
     products := {[ "p1" := Sample.soap; "p2" := Sample.serum ]};
     orders :=
       {[ "o6" := basket_of "a3" Paid;
          "o7" := basket_of "a0" Paid;
          "o8" := basket_of "a3" Shipping;
          "o9" := basket_of "a3" Delivered ]} |}.

Definition photo : upload := {| filename := "photo.jpg" |}.

(** A cart whose second line asks for more soap than there is, and whose
    third line names a product that does not exist. *)
Definition greedy : list Cart.item :=
  [ {| Cart.product := "p1"; Cart.quantity := 2 |};
    {| Cart.product := "p1"; Cart.quantity := 9 |};
    {| Cart.product := "p9"; Cart.quantity := 1 |} ].
End Scene.

(** * Running handlers *)

Arguments bind : simpl never.
Arguments await : simpl never.
Arguments try_catch : simpl never.
Arguments for_of : simpl never.

Lemma bind_run {A B} (m : M A) (k : A → M B) sch w :
  (m ≫= k) sch w =
    match m sch w with
    | (Value a, w') => k a sch w'
    | (Thrown e, w') => (Thrown e, w')
    | (Halted, w') => (Halted, w')
    end.
Proof. reflexivity. Qed.

Lemma try_value {A} (body : M A) h sch w a w' :
  body sch w = (Value a, w') → try_catch body h sch w = (Value a, w').
Proof. unfold try_catch. by intros ->. Qed.

Lemma try_halted {A} (body : M A) h sch w w' :
  body sch w = (Halted, w') → try_catch body h sch w = (Halted, w').
Proof. unfold try_catch. by intros ->. Qed.

Lemma for_of_nil {A S R} (body : A → S → M (R + S)) s :
  for_of [] body s = ret (inr s).
Proof. reflexivity. Qed.

Lemma for_of_cons {A S R} (x : A) l (body : A → S → M (R + S)) s :
  for_of (x :: l) body s =
    (r ← body x s;
     match r with
     | inl v => ret (inl v)
     | inr s' => for_of l body s'
     end).
Proof. reflexivity. Qed.

(** ** Rules for triples *)

Section triples.
Context (R : relation world) `{!PreOrder R}.
Hypothesis R_later : ∀ w, R w (later 1 w).

Lemma triple_ret {A} (a : A) (P : A → Prop) : P a → triple (ret a) R P.
Proof. intros HP sch w. by split. Qed.

Lemma triple_throw {A} e (P : A → Prop) : triple (throw e) R P.
Proof. intros sch w. by split. Qed.

Lemma triple_bind {A B} (m : M A) (k : A → M B) P Q :
  triple m R P → (∀ a, P a → triple (k a) R Q) → triple (m ≫= k) R Q.
Proof.
  intros Hm Hk sch w. rewrite bind_run.
  specialize (Hm sch w). destruct (m sch w) as [[a|e|] w']; simpl in *.
  - destruct Hm as [HR HP]. destruct (Hk a HP sch w') as [HR' HQ].
    split; [by etrans|done].
  - done.
  - done.
Qed.

Lemma triple_await {A} (op : db → A * db) (P : A → Prop) :
  (∀ w, R w {| store := (op (store w)).2; outbox := outbox w;
               clock := S (clock w) |} ∧ P (op (store w)).1) →
  triple (await op) R P.
Proof.
  intros Hop sch w. unfold await.
  destruct (sch (clock w)) eqn:E; simpl.
  - specialize (Hop w). by destruct (op (store w)).
  - split; [apply R_later|done].
  - split; [done|eauto].
Qed.

Lemma triple_member {A} (o : option A) prop (P : A → Prop) :
  (∀ a, o = Some a → P a) → triple (member o prop) R P.
Proof.
  intros H. destruct o; simpl; [apply triple_ret; auto|apply triple_throw].
Qed.

Lemma triple_for_of {A S Res} (body : A → S → M (Res + S)) l s :
  (∀ x s, triple (body x s) R (λ _, True)) →
  triple (for_of l body s) R (λ _, True).
Proof.
  intros Hb. revert s. induction l as [|x l IH]; intros s.
  - rewrite for_of_nil. by apply triple_ret.
  - rewrite for_of_cons. refine (triple_bind _ _ _ _ (Hb x s) _). intros [v|s'] _.
    + by apply triple_ret. + apply IH.
Qed.

End triples.

(** ** Undisturbed database operations *)

Lemma await_calm {A} (op : db → A * db) w :
  await op calm w =
    (Value (op (store w)).1,
     {| store := (op (store w)).2; outbox := outbox w; clock := S (clock w) |}).
Proof. unfold await, calm. by destruct (op (store w)). Qed.

Lemma Account_findById_calm id w :
  Account_findById id calm w = (Value (load (accounts (store w)) id), later 1 w).
Proof. unfold Account_findById. by rewrite await_calm. Qed.

Lemma Product_findById_calm id w :
  Product_findById id calm w = (Value (load (products (store w)) id), later 1 w).
Proof. unfold Product_findById. by rewrite await_calm. Qed.

Lemma Order_findById_calm id w :
  Order_findById id calm w = (Value (load (orders (store w)) id), later 1 w).
Proof. unfold Order_findById. by rewrite await_calm. Qed.

Lemma Order_findById_populate_calm id w :
  Order_findById_populate id calm w =
    (Value ((λ o, {| Populated.document := o;
                     Populated.items :=
                       populate (store w) <$> Order.items (fields o) |})
              <$> load (orders (store w)) id),
     later 1 w).
Proof. unfold Order_findById_populate. by rewrite await_calm. Qed.

Lemma Order_save_calm o w :
  Order_save o calm w =
    (Value (),
     {| store := with_orders (<[_id o := fields o]> (orders (store w))) (store w);
        outbox := outbox w; clock := S (clock w) |}).
Proof. unfold Order_save. by rewrite await_calm. Qed.

Lemma Product_save_calm p w :
  Product_save p calm w =
    (Value (),
     {| store :=
          with_products (<[_id p := fields p]> (products (store w))) (store w);
        outbox := outbox w; clock := S (clock w) |}).
Proof. unfold Product_save. by rewrite await_calm. Qed.

Lemma Account_save_calm a w :
  Account_save a calm w =
    (Value (),
     {| store :=
          with_accounts (<[_id a := fields a]> (accounts (store w))) (store w);
        outbox := outbox w; clock := S (clock w) |}).
Proof. unfold Account_save. by rewrite await_calm. Qed.

Lemma load_Some {A} (m : gmap oid A) id x :
  m !! id = Some x → load m id = Some (Doc id x).
Proof. unfold load. by intros ->. Qed.

Lemma load_None {A} (m : gmap oid A) id :
  m !! id = None → load m id = None.
Proof. unfold load. by intros ->. Qed.

Lemma Status_eqb_eq a b : Status_eqb a b = true ↔ a = b.
Proof. destruct a, b; simpl; split; congruence. Qed.

Lemma Status_eqb_neq a b : a ≠ b → negb (Status_eqb a b) = true.
Proof. destruct a, b; simpl; congruence. Qed.

Lemma Role_eqb_eq a b : Role_eqb a b = true ↔ a = b.
Proof. destruct a, b; simpl; split; congruence. Qed.

(** [findOne({ role })] yields a stored document of that role, and none
    only when no stored document has it. *)
Lemma find_role_Some r (m : gmap oid Account.t) d :
  find_role r m = Some d →
  m !! _id d = Some (fields d) ∧ Account.role (fields d) = r.
Proof.
  unfold find_role.
  destruct (list_find _ _) as [[i [id a]]|] eqn:E; [|done].
  intros [= <-]. apply list_find_Some in E as (Hi & HP & _). simpl in *.
  split; [|by apply Role_eqb_eq].
  apply elem_of_map_to_list. by apply list_elem_of_lookup_2 with i.
Qed.

Lemma find_role_None r (m : gmap oid Account.t) id a :
  find_role r m = None → m !! id = Some a → Account.role a ≠ r.
Proof.
  unfold find_role.
  destruct (list_find _ _) as [[i [id' a']]|] eqn:E; [done|].
  intros _ Hm Hr. apply list_find_None in E.
  apply elem_of_map_to_list in Hm.
  apply (proj1 (Forall_forall _ _) E) in Hm. apply Hm. simpl.
  by apply Role_eqb_eq.
Qed.

(** * Canceling an order that is not Paid *)

(** C5. Canceling an order whose status is not Paid answers 400 and
    changes nothing: the accounts, the products and the orders are those
    of before, and no mail is sent. *)
Theorem cancel_order_not_paid w orderId o :
  orders (store w) !! orderId = Some o →
  Order.status o ≠ Paid →
  handle (CancelOrder orderId) calm w =
    (Value (Some (Json 400 (Message "Only paid orders can be canceled."))),
     later 1 w).
Proof.
  intros Ho Hs. simpl. unfold cancel_order.
  apply try_value.
  rewrite bind_run, Order_findById_populate_calm, (load_Some _ _ _ Ho).
  simpl. by rewrite (Status_eqb_neq _ _ Hs).
Qed.

(** * Confirming a delivery without a file *)

(** C6. For an existing order, confirm-delivery without an uploaded file
    answers 400 whatever the status of the order, and changes nothing. *)
Theorem confirm_delivery_without_file w orderId o :
  orders (store w) !! orderId = Some o →
  handle (ConfirmDelivery orderId None) calm w =
    (Value (Some (Json 400 (Message
       (if Status_eqb (Order.status o) Shipping
        then "Delivery confirmation image is required."
        else "Only shipping orders can be confirmed as delivered.")))),
     later 1 w).
Proof.
  intros Ho. simpl. unfold confirm_delivery. apply try_value.
  rewrite bind_run, Order_findById_calm, (load_Some _ _ _ Ho). simpl.
  by destruct (Status_eqb (Order.status o) Shipping).
Qed.

(** * confirm-payment only ever redirects *)

Lemma anywhere_later w : anywhere w (later 1 w).
Proof. done. Qed.

Lemma reduce_quantity_anywhere item s :
  triple (reduce_quantity item s) anywhere (λ _, True).
Proof.
  unfold reduce_quantity.
  eapply (triple_bind anywhere);
    [by apply (triple_member anywhere) with (P := λ _, True)|].
  intros ref _.
  eapply (triple_bind anywhere);
    [apply (triple_await anywhere anywhere_later) with (P := λ _, True); done|].
  intros [product|] _; [|by apply triple_ret].
  eapply (triple_bind anywhere);
    [apply (triple_await anywhere anywhere_later) with (P := λ _, True); done|].
  intros _ _. by apply triple_ret.
Qed.

Lemma confirm_payment_try_redirects orderId code :
  triple (confirm_payment_try orderId code) anywhere
    (λ r, ∃ url, r = Some (Redirect url) ∧ url ∈ confirm_payment_urls orderId).
Proof.
  unfold confirm_payment_try, confirm_payment_urls.
  case_bool_decide.
  { apply triple_ret; [apply _|]. eexists; split; [done|]. set_solver. }
  eapply (triple_bind anywhere);
    [apply (triple_await anywhere anywhere_later) with (P := λ _, True); done|].
  intros [order|] _.
  2: { apply triple_ret; [apply _|]. eexists; split; [done|]. set_solver. }
  simpl. destruct (negb _).
  { apply triple_ret; [apply _|]. eexists; split; [done|]. set_solver. }
  eapply (triple_bind anywhere);
    [apply (triple_await anywhere anywhere_later) with (P := λ _, True); done|].
  intros _ _.
  eapply (triple_bind anywhere).
  { apply (triple_for_of anywhere). intros. apply reduce_quantity_anywhere. }
  intros _ _.
  apply triple_ret; [apply _|]. eexists; split; [done|]. set_solver.
Qed.

Lemma confirm_payment_unsuccessful orderId code sch w :
  code ≠ Some "00" →
  handle (ConfirmPayment orderId code) sch w =
    (Value (Some (Redirect (error_url "Payment%20unsuccessful"))), w).
Proof.
  intros Hc. simpl. unfold confirm_payment. apply try_value.
  unfold confirm_payment_try. by rewrite bool_decide_true.
Qed.

Lemma confirm_payment_order_not_found orderId w :
  orders (store w) !! orderId = None →
  handle (ConfirmPayment orderId (Some "00")) calm w =
    (Value (Some (Redirect (error_url "Order%20not%20found"))), later 1 w).
Proof.
  intros Ho. simpl. unfold confirm_payment. apply try_value.
  unfold confirm_payment_try. rewrite bool_decide_false by (by intros []).
  by rewrite bind_run, Order_findById_populate_calm, (load_None _ _ Ho).
Qed.

Lemma confirm_payment_already_processed orderId o w :
  orders (store w) !! orderId = Some o →
  Order.status o ≠ Pending →
  handle (ConfirmPayment orderId (Some "00")) calm w =
    (Value (Some (Redirect (error_url "Order%20already%20processed"))),
     later 1 w).
Proof.
  intros Ho Hs. simpl. unfold confirm_payment. apply try_value.
  unfold confirm_payment_try. rewrite bool_decide_false by (by intros []).
  rewrite bind_run, Order_findById_populate_calm, (load_Some _ _ _ Ho). simpl.
  by rewrite (Status_eqb_neq _ _ Hs).
Qed.

(** C8. confirm-payment never answers with JSON.  Whatever the schedule:
    when its [try] block returns, the response is a redirect to the success
    link, which carries [status=success] and the order id, or to the error
    link, which carries [status=error] and one of three fixed messages;
    when the block throws, the response is a redirect to the error link
    carrying [status=error] and the URI-encoded message of the exception;
    no response is sent only when the process is interrupted.  The three
    messages are those of a response code other than "00", of a missing
    order and of an order that is not Pending.  The links are written out
    in full. *)
Theorem confirm_payment_always_redirects orderId code :
  (∀ sch w,
     match confirm_payment_try orderId code sch w with
     | (Value r, w') =>
         handle (ConfirmPayment orderId code) sch w = (Value r, w')
         ∧ ∃ url,
             r = Some (Redirect url)
             ∧ url ∈
                 [ "exp://192.168.1.4:8081/--/cart?status=success&orderId="
                     +:+ orderId;
                   "exp://192.168.1.4:8081/--/cart?status=error&message=Payment%20unsuccessful";
                   "exp://192.168.1.4:8081/--/cart?status=error&message=Order%20not%20found";
                   "exp://192.168.1.4:8081/--/cart?status=error&message=Order%20already%20processed" ]
     | (Thrown e, w') =>
         handle (ConfirmPayment orderId code) sch w =
           (Value (Some (Redirect
              ("exp://192.168.1.4:8081/--/cart?status=error&message="
                 +:+ encodeURIComponent (message e)))), w')
     | (Halted, w') =>
         handle (ConfirmPayment orderId code) sch w = (Halted, w')
         ∧ ∃ n, sch n = Die
     end)
  ∧ (code ≠ Some "00" →
     ∀ sch w,
       handle (ConfirmPayment orderId code) sch w =
         (Value (Some (Redirect
            "exp://192.168.1.4:8081/--/cart?status=error&message=Payment%20unsuccessful")),
          w))
  ∧ (∀ w,
       orders (store w) !! orderId = None →
       handle (ConfirmPayment orderId (Some "00")) calm w =
         (Value (Some (Redirect
            "exp://192.168.1.4:8081/--/cart?status=error&message=Order%20not%20found")),
          later 1 w))
  ∧ (∀ w o,
       orders (store w) !! orderId = Some o →
       Order.status o ≠ Pending →
       handle (ConfirmPayment orderId (Some "00")) calm w =
         (Value (Some (Redirect
            "exp://192.168.1.4:8081/--/cart?status=error&message=Order%20already%20processed")),
          later 1 w)).
Proof.
  split; [|split; [|split]].
  - intros sch w. simpl. unfold confirm_payment, try_catch.
    destruct (confirm_payment_try_redirects orderId code sch w) as [_ H].
    by destruct (confirm_payment_try orderId code sch w) as [[r|e|] w'].
  - intros Hc sch w. by apply confirm_payment_unsuccessful.
  - intros w Ho. by apply confirm_payment_order_not_found.
  - intros w o Ho Hs. by apply confirm_payment_already_processed with o.
Qed.

(** * The stock loop of confirm-payment *)

Lemma stock_after_ordered p items q :
  (stock_after p items q == q - ordered_qty p items)%Q.
Proof.
  unfold stock_after, ordered_qty. revert q.
  induction items as [|it items IH]; intros q; simpl.
  - ring.
  - rewrite IH. case_decide; ring.
Qed.

Lemma take_stock_is_Some m it p :
  is_Some (m !! p) → is_Some (take_stock m it !! p).
Proof.
  unfold take_stock. destruct (m !! Item.product it) eqn:E; [|done].
  intros H. destruct (decide (Item.product it = p)) as [->|Hne].
  - rewrite lookup_insert_eq. eauto.
  - by rewrite lookup_insert_ne.
Qed.

Lemma all_in_stock_take_stock m it items :
  all_in_stock m items → all_in_stock (take_stock m it) items.
Proof.
  unfold all_in_stock. intros H. eapply Forall_impl; [exact H|].
  intros x. apply take_stock_is_Some.
Qed.

Lemma take_stock_lookup m items p :
  foldl take_stock m items !! p =
    (λ x, with_stock (stock_after p items (Product.quantity x)) x) <$> m !! p.
Proof.
  revert m. induction items as [|it items IH]; intros m; simpl.
  - destruct (m !! p) as [[]|]; done.
  - rewrite IH. unfold take_stock.
    destruct (decide (Item.product it = p)) as [->|Hne].
    + destruct (m !! p) as [x|] eqn:E.
      * by rewrite lookup_insert_eq.
      * by rewrite E.
    + destruct (m !! Item.product it); [by rewrite lookup_insert_ne|done].
Qed.

Lemma populate_in_stock d it x :
  products d !! Item.product it = Some x →
  populate d it =
    {| Populated.product := Some (Doc (Item.product it) x);
       Populated.quantity := Item.quantity it |}.
Proof. unfold populate, load. by intros ->. Qed.

Lemma populate_missing d it :
  products d !! Item.product it = None →
  populate d it =
    {| Populated.product := None; Populated.quantity := Item.quantity it |}.
Proof. unfold populate, load. by intros ->. Qed.

(** One undisturbed turn of the loop for an item whose product exists when
    the order is populated and when the turn runs. *)
Lemma reduce_quantity_calm d0 it w :
  is_Some (products d0 !! Item.product it) →
  is_Some (products (store w) !! Item.product it) →
  reduce_quantity (populate d0 it) () calm w =
    (Value (inr ()),
     {| store := with_products (take_stock (products (store w)) it) (store w);
        outbox := outbox w; clock := 2 + clock w |}).
Proof.
  intros [x0 H0] [x Hx]. rewrite (populate_in_stock _ _ _ H0).
  unfold reduce_quantity, take_stock. simpl.
  rewrite bind_run. simpl.
  rewrite bind_run, Product_findById_calm, (load_Some _ _ _ Hx). simpl.
  rewrite bind_run, Product_save_calm. simpl. by rewrite Hx.
Qed.

Lemma reduce_loop_calm d0 items w :
  all_in_stock (products d0) items →
  all_in_stock (products (store w)) items →
  for_of (populate d0 <$> items) reduce_quantity () calm w =
    (Value (inr ()),
     {| store :=
          with_products (foldl take_stock (products (store w)) items) (store w);
        outbox := outbox w; clock := 2 * length items + clock w |}).
Proof.
  revert w. induction items as [|it items IH]; intros w H0 Hw.
  - rewrite fmap_nil, for_of_nil. by destruct w as [[] ? ?].
  - apply Forall_cons in H0 as [H0 H0s]. pose proof Hw as Hw'.
    apply Forall_cons in Hw as [Hw Hws].
    rewrite fmap_cons, for_of_cons.
    rewrite bind_run, (reduce_quantity_calm _ _ _ H0 Hw). simpl.
    rewrite IH; [|done|by apply all_in_stock_take_stock].
    simpl. do 2 f_equal. f_equal. lia.
Qed.

(** ** What the stock loop leaves alone *)

Lemma same_orders_later w : same_orders w (later 1 w).
Proof. done. Qed.

Lemma reduce_quantity_same_orders item s :
  triple (reduce_quantity item s) same_orders (λ _, True).
Proof.
  unfold reduce_quantity.
  eapply (triple_bind same_orders);
    [by apply (triple_member same_orders) with (P := λ _, True)|].
  intros ref _.
  eapply (triple_bind same_orders);
    [apply (triple_await same_orders same_orders_later) with (P := λ _, True);
     done|].
  intros [product|] _; [|by apply triple_ret; [apply _|]].
  eapply (triple_bind same_orders);
    [apply (triple_await same_orders same_orders_later) with (P := λ _, True);
     done|].
  intros _ _. by apply triple_ret; [apply _|].
Qed.

Lemma reduce_loop_same_orders items sch w :
  orders (store (for_of items reduce_quantity () sch w).2) = orders (store w).
Proof.
  apply (triple_for_of same_orders reduce_quantity items ()).
  intros. apply reduce_quantity_same_orders.
Qed.

(** ** confirm-payment, case by case *)

(** On a Pending order the handler saves the order as Paid and then runs
    the stock loop over the populated line items. *)
Lemma confirm_payment_pending orderId o w :
  orders (store w) !! orderId = Some o →
  Order.status o = Pending →
  handle (ConfirmPayment orderId (Some "00")) calm w =
    match for_of (populate (store w) <$> Order.items o) reduce_quantity ()
            calm (paid_world orderId o w) with
    | (Value _, w') => (Value (Some (Redirect (success_url orderId))), w')
    | (Thrown e, w') =>
        (Value (Some (Redirect (error_url (encodeURIComponent (message e))))),
         w')
    | (Halted, w') => (Halted, w')
    end.
Proof.
  intros Ho Hs. simpl. unfold confirm_payment, try_catch.
  unfold confirm_payment_try. rewrite bool_decide_false by (by intros []).
  rewrite bind_run, Order_findById_populate_calm, (load_Some _ _ _ Ho). simpl.
  rewrite Hs. simpl.
  rewrite bind_run, Order_save_calm. simpl.
  rewrite bind_run. fold (paid_world orderId o w).
  by destruct (for_of _ _ _ _ _) as [[?|?|] ?].
Qed.


Lemma confirm_payment_pending_in_stock orderId o w :
  orders (store w) !! orderId = Some o →
  Order.status o = Pending →
  all_in_stock (products (store w)) (Order.items o) →
  handle (ConfirmPayment orderId (Some "00")) calm w =
    (Value (Some (Redirect (success_url orderId))),
     {| store :=
          {| accounts := accounts (store w);
             products := foldl take_stock (products (store w)) (Order.items o);
             orders :=
               <[orderId := Order.set_status Paid o]> (orders (store w)) |};
        outbox := outbox w;
        clock := 2 * length (Order.items o) + (2 + clock w) |}).
Proof.
  intros Ho Hs Hin. rewrite (confirm_payment_pending _ _ _ Ho Hs).
  by rewrite reduce_loop_calm.
Qed.

(** * Confirming a payment twice *)


(** * Stock is taken without a sufficiency check *)

(** C9. Confirming the payment of a Pending order whose products exist
    succeeds whatever the stock: every product loses the quantity ordered
    of it, and a product of which more is ordered than is in stock ends
    with a negative stock. *)
Theorem confirm_payment_oversells w orderId o p x :
  orders (store w) !! orderId = Some o →
  Order.status o = Pending →
  all_in_stock (products (store w)) (Order.items o) →
  products (store w) !! p = Some x →
  (Product.quantity x < ordered_qty p (Order.items o))%Q →
  let after := handle (ConfirmPayment orderId (Some "00")) calm w in
  after.1 = Value (Some (Redirect (success_url orderId)))
  ∧ ∃ x', products (store after.2) !! p = Some x'
      ∧ (Product.quantity x' ==
           Product.quantity x - ordered_qty p (Order.items o))%Q
      ∧ (Product.quantity x' < 0)%Q.
Proof.
  intros Ho Hs Hin Hx Hlt after. unfold after.
  rewrite (confirm_payment_pending_in_stock _ _ _ Ho Hs Hin). simpl.
  split; [done|]. rewrite take_stock_lookup, Hx. simpl.
  eexists. split; [done|]. simpl.
  pose proof (stock_after_ordered p (Order.items o) (Product.quantity x)) as E.
  split; [done|]. rewrite E. lra.
Qed.

(** * Interrupting confirm-payment *)

Lemma await_dies_before {A} (op : db → A * db) (n : nat) w :
  (clock w < n)%nat → await op (dies_at n) w = await op calm w.
Proof.
  intros H. unfold await, dies_at, calm.
  by destruct (Nat.ltb_spec (clock w) n); [|lia].
Qed.

Lemma await_dies_after {A} (op : db → A * db) (n : nat) w :
  (n ≤ clock w)%nat → await op (dies_at n) w = (Halted, w).
Proof.
  intros H. unfold await, dies_at.
  by destruct (Nat.ltb_spec (clock w) n); [lia|].
Qed.

Lemma world_eta w :
  {| store := with_products (products (store w)) (store w);
     outbox := outbox w; clock := clock w |} = w.
Proof. by destruct w as [[] ? ?]. Qed.

(** A turn of the loop that the interruption lets through. *)
Lemma reduce_quantity_dies_later d0 it (n : nat) w :
  is_Some (products d0 !! Item.product it) →
  is_Some (products (store w) !! Item.product it) →
  (2 + clock w ≤ n)%nat →
  reduce_quantity (populate d0 it) () (dies_at n) w =
    reduce_quantity (populate d0 it) () calm w.
Proof.
  intros [x0 H0] [x Hx] Hn. rewrite (populate_in_stock _ _ _ H0).
  unfold reduce_quantity. simpl.
  rewrite !(bind_run (ret _)). simpl.
  rewrite !(bind_run (Product_findById _)).
  unfold Product_findById at 1. rewrite await_dies_before by lia.
  fold (Product_findById (Item.product it)).
  rewrite Product_findById_calm, (load_Some _ _ _ Hx). simpl.
  rewrite !(bind_run (Product_save _)).
  unfold Product_save at 1. rewrite await_dies_before by (simpl; lia).
  done.
Qed.

(** A turn of the loop cut short: before the product is read ([b = 0]) or
    before it is saved ([b = 1]); the stock is as before. *)
Lemma reduce_quantity_dies_now d0 it (b : nat) w :
  is_Some (products d0 !! Item.product it) →
  is_Some (products (store w) !! Item.product it) →
  (b ≤ 1)%nat →
  reduce_quantity (populate d0 it) () (dies_at (clock w + b)) w =
    (Halted, later b w).
Proof.
  intros [x0 H0] [x Hx] Hb. rewrite (populate_in_stock _ _ _ H0).
  unfold reduce_quantity. simpl. rewrite bind_run. simpl.
  rewrite bind_run. destruct b as [|[|b]]; [| |lia].
  - unfold Product_findById. rewrite await_dies_after by lia.
    by destruct w.
  - unfold Product_findById at 1. rewrite await_dies_before by lia.
    fold (Product_findById (Item.product it)).
    rewrite Product_findById_calm, (load_Some _ _ _ Hx). simpl.
    rewrite bind_run. unfold Product_save.
    rewrite await_dies_after by (simpl; lia). done.
Qed.

Lemma reduce_loop_dies d0 items (k b : nat) w :
  all_in_stock (products d0) items →
  all_in_stock (products (store w)) items →
  (k < length items)%nat →
  (b ≤ 1)%nat →
  for_of (populate d0 <$> items) reduce_quantity ()
    (dies_at (clock w + 2 * k + b)) w =
    (Halted,
     {| store :=
          with_products (foldl take_stock (products (store w)) (take k items))
            (store w);
        outbox := outbox w; clock := clock w + 2 * k + b |}).
Proof.
  revert k w. induction items as [|it items IH]; intros k w H0 Hw Hk Hb.
  { simpl in Hk. lia. }
  apply Forall_cons in H0 as [H0 H0s]. apply Forall_cons in Hw as [Hw Hws].
  rewrite fmap_cons, for_of_cons, bind_run.
  destruct k as [|k].
  - replace (clock w + 2 * 0 + b) with (clock w + b) by lia.
    rewrite (reduce_quantity_dies_now _ _ _ _ H0 Hw Hb). simpl.
    rewrite <- (world_eta w) at 1. unfold later. simpl. do 2 f_equal. lia.
  - rewrite (reduce_quantity_dies_later _ _ _ _ H0 Hw) by lia.
    rewrite (reduce_quantity_calm _ _ _ H0 Hw).
    set (w2 := {| store := _; outbox := _; clock := _ |}).
    assert (clock w + 2 * S k + b = clock w2 + 2 * k + b)%nat as ->
      by (simpl; lia).
    rewrite (IH k w2); [|done| |simpl in Hk; lia|done].
    + done.
    + by apply all_in_stock_take_stock.
Qed.

(** Up to the loop, an interruption that comes later changes nothing. *)
Lemma confirm_payment_pending_dies orderId o (n : nat) w :
  orders (store w) !! orderId = Some o →
  Order.status o = Pending →
  (2 + clock w ≤ n)%nat →
  confirm_payment_try orderId (Some "00") (dies_at n) w =
    match for_of (populate (store w) <$> Order.items o) reduce_quantity ()
            (dies_at n) (paid_world orderId o w) with
    | (Value _, w') => (Value (Some (Redirect (success_url orderId))), w')
    | (Thrown e, w') => (Thrown e, w')
    | (Halted, w') => (Halted, w')
    end.
Proof.
  intros Ho Hs Hn.
  unfold confirm_payment_try. rewrite bool_decide_false by (by intros []).
  rewrite bind_run. unfold Order_findById_populate at 1.
  rewrite await_dies_before by lia.
  fold (Order_findById_populate orderId).
  rewrite Order_findById_populate_calm, (load_Some _ _ _ Ho). simpl.
  rewrite Hs. simpl. rewrite bind_run. unfold Order_save at 1.
  rewrite await_dies_before by (simpl; lia).
  fold (Order_save (Doc orderId (Order.set_status Paid o))).
  rewrite Order_save_calm. simpl. rewrite bind_run.
  fold (paid_world orderId o w).
  by destruct (for_of _ _ _ _ _) as [[?|?|] ?].
Qed.

(** C7. confirm-payment on a Pending order persists the status Paid
    before it touches any stock.  Interrupted at the save of the order,
    nothing has changed.  Interrupted at any later point, the stored order
    is Paid.  When the products of the line items exist and the
    interruption comes during the turn of the loop for line item number
    [k] (before its product is read, [b = 0], or before it is saved,
    [b = 1]), only the [k] line items before it have had their stock
    taken: none of them when [k = 0], and never all of them. *)
Theorem confirm_payment_interrupted w orderId o :
  orders (store w) !! orderId = Some o →
  Order.status o = Pending →
  handle (ConfirmPayment orderId (Some "00")) (dies_at (1 + clock w)) w =
    (Halted, later 1 w)
  ∧ (∀ n : nat, (2 + clock w ≤ n)%nat →
       orders (store (handle (ConfirmPayment orderId (Some "00"))
                        (dies_at n) w).2) =
         <[orderId := Order.set_status Paid o]> (orders (store w)))
  ∧ (all_in_stock (products (store w)) (Order.items o) →
     ∀ k b : nat, (k < length (Order.items o))%nat → (b ≤ 1)%nat →
       handle (ConfirmPayment orderId (Some "00"))
         (dies_at (2 + clock w + 2 * k + b)) w =
       (Halted,
        {| store :=
             {| accounts := accounts (store w);
                products :=
                  foldl take_stock (products (store w))
                    (take k (Order.items o));
                orders :=
                  <[orderId := Order.set_status Paid o]> (orders (store w)) |};
           outbox := outbox w;
           clock := 2 + clock w + 2 * k + b |})).
Proof.
  intros Ho Hs. split; [|split].
  - simpl. unfold confirm_payment. apply try_halted.
    unfold confirm_payment_try. rewrite bool_decide_false by (by intros []).
    rewrite bind_run. unfold Order_findById_populate at 1.
    rewrite await_dies_before by lia.
    fold (Order_findById_populate orderId).
    rewrite Order_findById_populate_calm, (load_Some _ _ _ Ho). simpl.
    rewrite Hs. simpl. rewrite bind_run. unfold Order_save.
    by rewrite await_dies_after by (simpl; lia).
  - intros n Hn. simpl. unfold confirm_payment, try_catch.
    rewrite (confirm_payment_pending_dies _ _ _ _ Ho Hs Hn).
    pose proof (reduce_loop_same_orders
      (populate (store w) <$> Order.items o) (dies_at n)
      (paid_world orderId o w)) as H.
    by destruct (for_of _ _ _ _ _) as [[?|?|] ?].
  - intros Hin k b Hk Hb.
    remember (2 + clock w + 2 * k + b)%nat as n eqn:Hn.
    simpl. unfold confirm_payment. apply try_halted.
    rewrite (confirm_payment_pending_dies _ _ _ _ Ho Hs) by lia.
    assert (n = clock (paid_world orderId o w) + 2 * k + b)%nat as ->
      by (simpl; lia).
    by rewrite reduce_loop_dies.
Qed.

(** * cancel-order on a Paid order *)

Lemma Account_findOne_role_calm r w :
  Account_findOne_role r calm w =
    (Value (find_role r (accounts (store w))), later 1 w).
Proof. unfold Account_findOne_role. by rewrite await_calm. Qed.

(** Up to its loop, cancel-order has credited the owner and the admin. *)
Lemma cancel_order_paid orderId o a w :
  orders (store w) !! orderId = Some o →
  Order.status o = Paid →
  accounts (store w) !! Order.account o = Some a →
  handle (CancelOrder orderId) calm w =
    let its := populate (store w) <$> Order.items o in
    match for_of its
            (restore_quantity orderId (refund_of o)
               (Doc (Order.account o) (Account.credit (refund_of o) a)) its)
            (Doc orderId o) calm (refunded_world o a w) with
    | (Value (inl sent), w') => (Value (Some sent), w')
    | (Value (inr _), w') => (Value None, w')
    | (Thrown e, w') =>
        (Value (Some (Json 500 (ServerError "Lỗi máy chủ" (message e)))), w')
    | (Halted, w') => (Halted, w')
    end.
Proof.
  intros Ho Hs Ha. simpl. unfold cancel_order, try_catch.
  rewrite bind_run, Order_findById_populate_calm, (load_Some _ _ _ Ho). simpl.
  rewrite Hs. simpl.
  rewrite bind_run, Account_findById_calm. simpl.
  rewrite (load_Some _ _ _ Ha). rewrite bind_run. simpl.
  rewrite bind_run, Account_save_calm. simpl.
  rewrite bind_run, Account_findOne_role_calm. simpl.
  unfold refunded_world, refunded_accounts. simpl.
  destruct (find_role admin _) as [adminAccount|]; simpl.
  - rewrite bind_run, Account_save_calm. simpl. rewrite bind_run.
    by destruct (for_of _ _ _ _ _) as [[[?|?]|?|] ?].
  - rewrite bind_run. simpl. rewrite bind_run.
    by destruct (for_of _ _ _ _ _) as [[[?|?]|?|] ?].
Qed.

(** The first turn of the loop, for a line item whose product exists. *)
Lemma restore_quantity_calm orderId refund acc its d0 it x o w :
  products d0 !! Item.product it = Some x →
  ∀ y, products (store w) !! Item.product it = Some y →
  restore_quantity orderId refund acc its (populate d0 it) o calm w =
    (Value (inl (Json 200 (Refunded refund_message refund))),
     {| store :=
          {| accounts := accounts (store w);
             products :=
               <[Item.product it := Product.add_quantity (Item.quantity it) y]>
                 (products (store w));
             orders :=
               <[_id o := Order.set_status Canceled (fields o)]>
                 (orders (store w)) |};
        outbox :=
          outbox w ++
            [ {| mail_to := Account.email (fields acc);
                 mail_orderId := orderId;
                 mail_refundAmount := refund;
                 mail_items := format_item <$> its |} ];
        clock := 3 + clock w |}).
Proof.
  intros H0 y Hy. rewrite (populate_in_stock _ _ _ H0).
  unfold restore_quantity. simpl. rewrite bind_run. simpl.
  rewrite bind_run, Product_findById_calm, (load_Some _ _ _ Hy). simpl.
  rewrite bind_run, Product_save_calm. simpl.
  rewrite bind_run, Order_save_calm. simpl.
  by rewrite bind_run.
Qed.

Lemma restore_quantity_missing orderId refund acc its d0 it o sch w :
  products d0 !! Item.product it = None →
  restore_quantity orderId refund acc its (populate d0 it) o sch w =
    (Thrown (Error (null_property_message "_id")), w).
Proof.
  intros H0. rewrite (populate_missing _ _ H0).
  unfold restore_quantity. simpl. by rewrite bind_run.
Qed.

(** * cancel-order restores the stock of the first line item only *)

(** C1 (what the code does). Canceling a Paid order whose owner exists
    and whose first line item refers to an existing product answers 200
    with a refund of half the total, credits the owner and then the admin
    account [findOne] yields (a stored account of role admin, if there is
    one), marks the order Canceled and sends the mail; of the stock, only
    the product of the first line item gets its quantity back: the handler
    returns inside the first turn of its loop, so every other product
    keeps the stock it had. *)
Theorem cancel_order_restores_first_item_only w orderId o a it rest x :
  orders (store w) !! orderId = Some o →
  Order.status o = Paid →
  accounts (store w) !! Order.account o = Some a →
  Order.items o = it :: rest →
  products (store w) !! Item.product it = Some x →
  let after := handle (CancelOrder orderId) calm w in
  let refund := (Order.totalAmount o * (1 # 2))%Q in
  let credited :=
    <[Order.account o := Account.credit refund a]> (accounts (store w)) in
  after.1 = Value (Some (Json 200 (Refunded refund_message refund)))
  ∧ match find_role admin credited with
    | Some adminAccount =>
        Account.role (fields adminAccount) = admin
        ∧ credited !! _id adminAccount = Some (fields adminAccount)
        ∧ accounts (store after.2) =
            <[_id adminAccount :=
                Account.credit refund (fields adminAccount)]> credited
    | None =>
        (∀ id b, credited !! id = Some b → Account.role b ≠ admin)
        ∧ accounts (store after.2) = credited
    end
  ∧ orders (store after.2) =
      <[orderId := Order.set_status Canceled o]> (orders (store w))
  ∧ products (store after.2) =
      <[Item.product it := Product.add_quantity (Item.quantity it) x]>
        (products (store w))
  ∧ (∀ p, p ≠ Item.product it →
       products (store after.2) !! p = products (store w) !! p)
  ∧ outbox after.2 = (outbox w ++ [refund_mail orderId o a (store w)])%list.
Proof.
  intros Ho Hs Ha Hi Hx after refund credited. unfold after.
  rewrite (cancel_order_paid _ _ _ _ Ho Hs Ha). cbv zeta.
  rewrite Hi, fmap_cons, for_of_cons, bind_run.
  erewrite restore_quantity_calm by done. simpl.
  split; [done|]. split; [|repeat split; try done].
  - unfold refunded_accounts, refund_of. fold refund. fold credited.
    destruct (find_role admin credited) as [adminAccount|] eqn:E.
    + destruct (find_role_Some _ _ _ E). done.
    + split; [|done]. intros id b. by apply find_role_None.
  - intros p Hp. by rewrite lookup_insert_ne.
  - unfold refund_mail. by rewrite Hi.
Qed.

(** * A line item whose product is gone *)

Lemma for_of_app {A S R} (l1 l2 : list A) (body : A → S → M (R + S)) s sch w :
  for_of (l1 ++ l2) body s sch w =
    match for_of l1 body s sch w with
    | (Value (inr s'), w') => for_of l2 body s' sch w'
    | r => r
    end.
Proof.
  revert s w. induction l1 as [|x l1 IH]; intros s w; [done|].
  rewrite <- app_comm_cons, !for_of_cons, !bind_run.
  destruct (body x s sch w) as [[[v|s']|e|] w']; by try apply IH.
Qed.

Lemma reduce_quantity_missing d0 it sch w :
  products d0 !! Item.product it = None →
  reduce_quantity (populate d0 it) () sch w =
    (Thrown (Error (null_property_message "_id")), w).
Proof.
  intros H0. rewrite (populate_missing _ _ H0).
  unfold reduce_quantity. simpl. by rewrite bind_run.
Qed.

(** C10 (what the code does). A line item whose product no longer exists
    is populated as [null], and reading its [_id] throws.  In
    confirm-payment the exception comes after the order was saved as Paid
    and the earlier line items had their stock taken, and the response is
    the error redirect.  In cancel-order, when it is the first line item,
    the exception comes after the credits and the response is a 500; the
    order stays Paid. *)
Theorem missing_product_is_an_error :
  (∀ w orderId o pre it rest,
     orders (store w) !! orderId = Some o →
     Order.status o = Pending →
     Order.items o = (pre ++ it :: rest)%list →
     all_in_stock (products (store w)) pre →
     products (store w) !! Item.product it = None →
     handle (ConfirmPayment orderId (Some "00")) calm w =
       (Value (Some (Redirect
          (error_url (encodeURIComponent (null_property_message "_id"))))),
        {| store :=
             {| accounts := accounts (store w);
                products := foldl take_stock (products (store w)) pre;
                orders :=
                  <[orderId := Order.set_status Paid o]> (orders (store w)) |};
           outbox := outbox w;
           clock := 2 * length pre + (2 + clock w) |}))
  ∧ (∀ w orderId o a it rest,
       orders (store w) !! orderId = Some o →
       Order.status o = Paid →
       accounts (store w) !! Order.account o = Some a →
       Order.items o = it :: rest →
       products (store w) !! Item.product it = None →
       handle (CancelOrder orderId) calm w =
         (Value (Some (Json 500
            (ServerError "Lỗi máy chủ" (null_property_message "_id")))),
          refunded_world o a w)).
Proof.
  split.
  - intros w orderId o pre it rest Ho Hs Hi Hpre Hit.
    rewrite (confirm_payment_pending _ _ _ Ho Hs).
    rewrite Hi, fmap_app, fmap_cons, for_of_app.
    rewrite reduce_loop_calm by done. cbv beta iota.
    rewrite for_of_cons, bind_run.
    by rewrite reduce_quantity_missing.
  - intros w orderId o a it rest Ho Hs Ha Hi Hit.
    rewrite (cancel_order_paid _ _ _ _ Ho Hs Ha). cbv zeta.
    rewrite Hi, fmap_cons, for_of_cons, bind_run.
    by rewrite restore_quantity_missing.
Qed.

(** * The order workflow *)

Lemma same_orders_eq w w' :
  same_orders w w' → orders (store w') = orders (store w).
Proof. done. Qed.

(** Case analysis on the events of the schedule, on lookups and on status
    guards; the stock loop leaves the orders alone. *)
Ltac crunch :=
  repeat (simpl in *; try done;
    match goal with
    | |- context [match ?e with Proceed => _ | Reject _ => _ | Die => _ end] =>
        destruct e eqn:?
    | |- context [if negb ?b then _ else _] => destruct b eqn:?
    | H : Status_eqb _ _ = true |- _ => apply Status_eqb_eq in H
    | H : ?m !! ?i = _ |- context [?m !! ?i] => rewrite H
    | H : Order.items ?o = _ |- context [Order.items ?o] => rewrite H
    | |- context [_ <$> (?m !! ?i)] => destruct (m !! i) eqn:?
    | |- context [find_role ?r ?m] => destruct (find_role r m)
    | |- context [for_of ?l reduce_quantity ?s ?sch ?w] =>
        let H := fresh in
        pose proof (reduce_loop_same_orders l sch w) as H;
        destruct (for_of l reduce_quantity s sch w) as [[?|?|] ?]
    end).

Ltac unfold_monad :=
  unfold try_catch, respond, member, throw;
  unfold mbind, M_bind, bind, await, ret.

Lemma update_shipping_effect orderId sch w :
  order_effect (UpdateShipping orderId) (orders (store w))
    (orders (store (update_shipping orderId sch w).2)).
Proof.
  unfold update_shipping, Order_findById, Order_save, load.
  destruct (orders (store w) !! orderId) as [o|] eqn:Ho;
    unfold_monad; crunch; try by left.
  right; left. exists orderId, o, (Order.set_status Shipping o).
  split; [done|]. split; [done|]. simpl.
  match goal with H : Order.status o = _ |- _ => rewrite H end. constructor.
Qed.

Lemma confirm_delivery_effect orderId file sch w :
  order_effect (ConfirmDelivery orderId file) (orders (store w))
    (orders (store (confirm_delivery orderId file sch w).2)).
Proof.
  unfold confirm_delivery, Order_findById, Order_save, load.
  destruct (orders (store w) !! orderId) as [o|] eqn:Ho, file as [file|];
    unfold_monad; crunch; try by left.
  right; left. eexists orderId, o, _.
  split; [done|]. split; [done|]. simpl.
  match goal with H : Order.status o = _ |- _ => rewrite H end. constructor.
Qed.
Lemma confirm_payment_effect orderId code sch w :
  order_effect (ConfirmPayment orderId code) (orders (store w))
    (orders (store (confirm_payment orderId code sch w).2)).
Proof.
  unfold confirm_payment, confirm_payment_try, confirm_payment_catch.
  unfold Order_findById_populate, Order_save, load.
  case_bool_decide; [by left|].
  destruct (orders (store w) !! orderId) as [o|] eqn:Ho;
    unfold_monad; crunch; try by left.
  all: simpl in *.
  all: right; left; exists orderId, o, (Order.set_status Paid o).
  all: split; [done|]; split; [congruence|]; simpl.
  all: match goal with H : Order.status _ = _ |- _ => rewrite H end.
  all: constructor.
Qed.

Lemma cancel_order_effect orderId sch w :
  order_effect (CancelOrder orderId) (orders (store w))
    (orders (store (cancel_order orderId sch w).2)).
Proof.
  unfold cancel_order, Order_findById_populate, Account_findById.
  unfold Account_save, Account_findOne_role, load.
  destruct (orders (store w) !! orderId) as [o|] eqn:Ho;
    [destruct (Order.items o) as [|it rest] eqn:Hi|];
    unfold_monad; crunch; try by left.
  all: rewrite ?fmap_nil, ?for_of_nil, ?fmap_cons, ?for_of_cons.
  all: unfold restore_quantity, Product_findById, Product_save, Order_save.
  all: unfold sendMail, populate, load; unfold_monad; crunch; try by left.
  all: simpl in *.
  all: right; left; exists orderId, o, (Order.set_status Canceled o).
  all: split; [done|]; split; [done|]; simpl.
  all: match goal with H : Order.status _ = _ |- _ => rewrite H end.
  all: constructor.
Qed.
Lemma same_store_later w : same_store w (later 1 w).
Proof. done. Qed.

Lemma cart_step_same_store item acc :
  triple (cart_step item acc) same_store (λ _, True).
Proof.
  unfold cart_step. destruct acc as [totalAmount orderItems].
  eapply (triple_bind same_store);
    [apply (triple_await same_store same_store_later) with (P := λ _, True);
     done|].
  intros [product|] _; [|by apply triple_ret; [apply _|]].
  destruct (Qlt_le_dec _ _); by apply triple_ret; [apply _|].
Qed.

Lemma cart_loop_same_store items acc sch w :
  store (for_of items cart_step acc sch w).2 = store w.
Proof.
  apply (triple_for_of same_store cart_step items acc).
  intros. apply cart_step_same_store.
Qed.

Lemma new_order_id_fresh d : orders d !! new_order_id d = None.
Proof. apply not_elem_of_dom. unfold new_order_id. apply is_fresh. Qed.

Lemma add_to_cart_effect account items sch w :
  order_effect (AddToCart account items) (orders (store w))
    (orders (store (add_to_cart account items sch w).2)).
Proof.
  unfold add_to_cart, Account_findById, new_Order, Order_save, load.
  destruct account as [account|], items as [[|item items]|];
    unfold_monad; crunch; try by left.
  all: simpl in *.
  all: match goal with
       | |- context [for_of ?l cart_step ?s ?sch ?w] =>
           pose proof (cart_loop_same_store l s sch w) as Hloop;
           destruct (for_of l cart_step s sch w) as [[[?|[? ?]]|?|] w1]
       end.
  all: simpl in *; rewrite ?Hloop; crunch; try by left.
  all: simpl in *; rewrite ?Hloop; try by left.
  right; right. exists (new_order_id (store w)). eexists.
  split; [by eexists _, _|].
  split; [apply new_order_id_fresh|done].
Qed.

Lemma add_balance_effect account amount sch w :
  orders (store (add_balance account amount sch w).2) = orders (store w).
Proof.
  unfold add_balance, bad_amount, Account_findById, Account_save, load.
  destruct account as [account|], amount as [amount|];
    unfold_monad; crunch.
  all: destruct (Qle_bool amount 0); crunch.
Qed.

Lemma get_account_effect id sch w :
  orders (store (get_account id sch w).2) = orders (store w).
Proof.
  unfold get_account, Account_findById, load. unfold_monad; crunch.
Qed.

Lemma orders_of_account_effect id sch w :
  orders (store (orders_of_account id sch w).2) = orders (store w).
Proof. unfold orders_of_account, Order_find. unfold_monad; crunch. Qed.

Lemma shipper_orders_effect sch w :
  orders (store (shipper_orders sch w).2) = orders (store w).
Proof. unfold shipper_orders, Order_find. unfold_monad; crunch. Qed.

Lemma handle_effect req sch w :
  order_effect req (orders (store w)) (orders (store (handle req sch w).2)).
Proof.
  destruct req; simpl.
  - left. apply get_account_effect.
  - apply add_to_cart_effect.
  - apply confirm_payment_effect.
  - apply update_shipping_effect.
  - apply confirm_delivery_effect.
  - left. apply orders_of_account_effect.
  - left. apply add_balance_effect.
  - apply cancel_order_effect.
  - left. apply shipper_orders_effect.
Qed.

Lemma after_status req sch w id o' :
  orders (store (after req sch w)) !! id = Some o' →
  match orders (store w) !! id with
  | Some o =>
      Order.status o' = Order.status o
      ∨ performs req (Order.status o) (Order.status o')
  | None => creates req ∧ Order.status o' = Pending
  end.
Proof.
  unfold after. intros H'.
  destruct (handle_effect req sch w)
    as [E|[(id0 & o0 & o1 & H0 & E & Hp)|(id0 & o1 & Hc & H0 & E & Hp)]];
    rewrite E in H'; clear E.
  - rewrite H'. by left.
  - destruct (decide (id0 = id)) as [->|Hne].
    + rewrite lookup_insert_eq in H'. injection H' as <-. rewrite H0. by right.
    + rewrite lookup_insert_ne in H' by done. rewrite H'. by left.
  - destruct (decide (id0 = id)) as [->|Hne].
    + rewrite lookup_insert_eq in H'. injection H' as <-. by rewrite H0.
    + rewrite lookup_insert_ne in H' by done. rewrite H'. by left.
Qed.

Lemma after_keeps req sch w id o :
  orders (store w) !! id = Some o →
  ∃ o', orders (store (after req sch w)) !! id = Some o'.
Proof.
  unfold after. intros H.
  destruct (handle_effect req sch w)
    as [E|[(id0 & o0 & o1 & H0 & E & Hp)|(id0 & o1 & Hc & H0 & E & Hp)]];
    rewrite E; clear E.
  - eauto.
  - destruct (decide (id0 = id)) as [->|Hne].
    + rewrite lookup_insert_eq. eauto.
    + rewrite lookup_insert_ne by done. eauto.
  - destruct (decide (id0 = id)) as [->|Hne]; [congruence|].
    rewrite lookup_insert_ne by done. eauto.
Qed.

Lemma after_all_forward rs w id o :
  orders (store w) !! id = Some o →
  ∃ o', orders (store (after_all rs w)) !! id = Some o'
    ∧ rtc forward (Order.status o) (Order.status o').
Proof.
  revert w o. induction rs as [|[req sch] rs IH]; intros w o H; simpl.
  - eauto using rtc_refl.
  - destruct (after_keeps req sch w id o H) as [o1 H1].
    pose proof (after_status req sch w id o1 H1) as Hstep. rewrite H in Hstep.
    destruct (IH _ _ H1) as (o' & H' & Hrtc). exists o'. split; [done|].
    destruct Hstep as [E|Hp]; [by rewrite <- E|].
    eapply rtc_l; [by exists req|done].
Qed.

(** C3 (amended: requests served one at a time).  When each handler runs
    to its end before the next request is taken up, a request changes the
    status of a stored order only along Pending→Paid (confirm-payment),
    Paid→Shipping (update-shipping), Shipping→Delivered (confirm-delivery)
    or Paid→Canceled (cancel-order), whatever the schedule; an order that
    appears was created Pending by add-to-cart.  No handler makes
    Pending→Canceled or Shipping→Canceled, every change moves to a later
    stage, and over any sequence of requests an order stays stored and its
    status moves by such changes only.  (Served concurrently, two handlers
    can leave an order Canceled that was Shipping in between: see the
    workflow under concurrent requests, below.) *)
Theorem order_status_workflow :
  (∀ req sch w id o',
     orders (store (after req sch w)) !! id = Some o' →
     match orders (store w) !! id with
     | Some o =>
         Order.status o' = Order.status o
         ∨ performs req (Order.status o) (Order.status o')
     | None => creates req ∧ Order.status o' = Pending
     end)
  ∧ (∀ req, ¬ performs req Pending Canceled ∧ ¬ performs req Shipping Canceled)
  ∧ (∀ req s s', performs req s s' → (stage s < stage s')%nat)
  ∧ (∀ rs w id o,
       orders (store w) !! id = Some o →
       ∃ o', orders (store (after_all rs w)) !! id = Some o'
         ∧ rtc forward (Order.status o) (Order.status o')).
Proof.
  split; [exact after_status|]. split; [|split].
  - intros req. split; inversion 1.
  - intros req s s' []; simpl; lia.
  - exact after_all_forward.
Qed.

(** * Processes and the handlers they stand for *)

Lemma run_pbind {A B} (p : proc A) (k : A → proc B) sch w :
  run (pbind p k) sch w =
    match run p sch w with
    | (Value a, w') => run (k a) sch w'
    | (Thrown e, w') => (Thrown e, w')
    | (Halted, w') => (Halted, w')
    end.
Proof.
  revert w. induction p as [a|e|X op resume IHr rejected IHj|m next IH];
    intros w; simpl; try done.
  destruct (sch (clock w)); [|apply IHj|done].
  destruct (op (store w)). apply IHr.
Qed.

Lemma run_ptry {A} (p : proc A) (h : exn → proc A) sch w :
  run (ptry p h) sch w =
    match run p sch w with
    | (Thrown e, w') => run (h e) sch w'
    | r => r
    end.
Proof.
  revert w. induction p as [a|e|X op resume IHr rejected IHj|m next IH];
    intros w; simpl; try done.
  destruct (sch (clock w)); [|apply IHj|done].
  destruct (op (store w)). apply IHr.
Qed.

Lemma agrees_ret {A} (a : A) : agrees (Returned a) (ret a).
Proof. done. Qed.

Lemma agrees_respond r : agrees (Returned (Some r)) (respond r).
Proof. done. Qed.

Lemma agrees_await {X} (op : db → X * db) : agrees (pawait op) (await op).
Proof.
  intros sch w. unfold await. simpl.
  destruct (sch (clock w)); [|done..]. by destruct (op (store w)).
Qed.

Lemma agrees_send m : agrees (psend m) (sendMail m).
Proof. done. Qed.

Lemma agrees_member {A} (o : option A) prop :
  agrees (pmember o prop) (member o prop).
Proof. by destruct o. Qed.

Lemma agrees_bind {A B} (p : proc A) (m : M A) (k : A → proc B) f :
  agrees p m → (∀ a, agrees (k a) (f a)) → agrees (p ≫= k) (m ≫= f).
Proof.
  intros Hp Hk sch w. unfold mbind at 1, proc_bind.
  rewrite run_pbind, bind_run, Hp.
  destruct (m sch w) as [[a|e|] w']; [apply Hk|done..].
Qed.

Lemma agrees_try {A} (p : proc A) (m : M A) h g :
  agrees p m → (∀ e, agrees (h e) (g e)) → agrees (ptry p h) (try_catch m g).
Proof.
  intros Hp Hh sch w. unfold try_catch. rewrite run_ptry, Hp.
  destruct (m sch w) as [[a|e|] w']; [done|apply Hh|done].
Qed.

Lemma agrees_for_of {A S R} (l : list A) (body : A → S → proc (R + S))
    (body' : A → S → M (R + S)) s :
  (∀ x s, agrees (body x s) (body' x s)) →
  agrees (pfor_of l body s) (for_of l body' s).
Proof.
  intros Hb. revert s. induction l as [|x l IH]; intros s sch w.
  - by rewrite for_of_nil.
  - rewrite for_of_cons. revert sch w. apply agrees_bind; [apply Hb|].
    intros [v|s']; [done|apply IH].
Qed.

(** Served alone, the process of update-shipping is the handler. *)
Lemma update_shipping_process_agrees orderId :
  agrees (update_shipping_process orderId) (update_shipping orderId).
Proof.
  unfold update_shipping_process, update_shipping.
  apply agrees_try; [|intros e; apply agrees_respond].
  apply agrees_bind; [apply agrees_await|].
  intros [order|]; [|apply agrees_respond].
  destruct (negb _); [apply agrees_respond|].
  apply agrees_bind; [apply agrees_await|].
  intros _. apply agrees_respond.
Qed.

Lemma restore_quantity_process_agrees orderId refund account its item order :
  agrees (restore_quantity_process orderId refund account its item order)
    (restore_quantity orderId refund account its item order).
Proof.
  unfold restore_quantity_process, restore_quantity.
  apply agrees_bind; [apply agrees_member|]. intros ref.
  apply agrees_bind; [apply agrees_await|]. intros product.
  apply agrees_bind.
  { destruct product; [apply agrees_await|apply agrees_ret]. }
  intros _. apply agrees_bind; [apply agrees_await|]. intros _.
  apply agrees_bind; [apply agrees_send|]. intros _.
  apply agrees_ret.
Qed.

(** Served alone, the process of cancel-order is the handler. *)
Lemma cancel_order_process_agrees orderId :
  agrees (cancel_order_process orderId) (cancel_order orderId).
Proof.
  unfold cancel_order_process, cancel_order.
  apply agrees_try; [|intros e; apply agrees_respond].
  apply agrees_bind; [apply agrees_await|].
  intros [order|]; [|apply agrees_respond].
  cbv zeta. destruct (negb _); [apply agrees_respond|].
  apply agrees_bind; [apply agrees_await|]. intros account.
  apply agrees_bind; [apply agrees_member|]. intros account'.
  apply agrees_bind; [apply agrees_await|]. intros _.
  apply agrees_bind; [apply agrees_await|]. intros adminAccount.
  apply agrees_bind.
  { destruct adminAccount; [apply agrees_await|apply agrees_ret]. }
  intros _. apply agrees_bind.
  { apply agrees_for_of. intros. apply restore_quantity_process_agrees. }
  intros [sent|?]; [apply agrees_respond|apply agrees_ret].
Qed.

(** A pool of one process, turned until the process has ended, does what
    the process does under the undisturbed schedule. *)
Lemma served_alone (p : proc (option response)) w :
  ∃ n,
    let end_ :=
      served (replicate n 0%nat) [ (upto p (outbox w)).1 ]
        {| store := store w; outbox := (upto p (outbox w)).2;
           clock := clock w |} in
    end_.2 = (run p calm w).2
    ∧ match (run p calm w).1 with
      | Value r => end_.1 = [Returned r]
      | Thrown e => end_.1 = [Raised e]
      | Halted => False
      end.
Proof.
  revert w. induction p as [a|e|X op resume IHr rejected IHj|m next IH];
    intros w.
  - exists 0%nat. simpl. by destruct w.
  - exists 0%nat. simpl. by destruct w.
  - simpl. destruct (op (store w)) as [x d] eqn:Eop.
    destruct (IHr x {| store := d; outbox := outbox w;
                       clock := S (clock w) |}) as [n Hn].
    exists (S n). simpl. unfold turn. simpl. rewrite Eop.
    simpl in Hn. destruct (upto (resume x) (outbox w)) as [p' out].
    exact Hn.
  - simpl.
    destruct (IH {| store := store w; outbox := outbox w ++ [m];
                    clock := clock w |}) as [n Hn].
    exists n. exact Hn.
Qed.

(** So cancel-order and update-shipping served one at a time are runs of
    the event loop: the process is turned until its end, and the world it
    leaves is the world the handler leaves. *)
Lemma served_one_at_a_time orderId w :
  (∃ n, (served (replicate n 0%nat) [ cancel_order_process orderId ] w).2 =
          after (CancelOrder orderId) calm w)
  ∧ (∃ n, (served (replicate n 0%nat) [ update_shipping_process orderId ] w).2
          = after (UpdateShipping orderId) calm w).
Proof.
  split.
  - destruct (served_alone (cancel_order_process orderId) w) as (n & Hn & _).
    rewrite cancel_order_process_agrees in Hn.
    exists n. simpl in Hn. by destruct w.
  - destruct (served_alone (update_shipping_process orderId) w)
      as (n & Hn & _).
    rewrite update_shipping_process_agrees in Hn.
    exists n. simpl in Hn. by destruct w.
Qed.

(** * The workflow under concurrent requests *)

(** C3 (the claim as written fails).  The status test of a handler and its
    save are separate operations, and nothing locks the order in between.
    On the sample shop the owner of the Paid order [o2] cancels it while
    the shipper marks it as shipping: cancel-order loads the order and
    finds it Paid, update-shipping loads it, saves it as Shipping and
    answers 200, and cancel-order, going on, credits the accounts, puts
    the stock of the first line back, saves the order as Canceled and
    answers 200.  The stored order goes Paid, Shipping, Canceled, and
    Shipping to Canceled is none of the four changes of the workflow. *)
Lemma order_status_workflow_counterexample :
  history "o2" (serve Race.turns Race.requests (start Sample.shop)) =
    [ Some Paid; Some Paid; Some Paid; Some Shipping; Some Shipping;
      Some Shipping; Some Shipping; Some Shipping; Some Shipping;
      Some Shipping; Some Canceled ]
  ∧ (served Race.turns Race.requests (start Sample.shop)).1 =
      [ Returned (Some (Json 200
          (Refunded
             "Đơn hàng đã được hủy và hoàn tiền 50%. Số lượng sản phẩm đã được cập nhật vào kho."
             (29 # 2))));
        Returned (Some (Json 200
          (ShippingUpdated "Order status updated to Shipping." "o2"))) ]
  ∧ ¬ forward Shipping Canceled
  ∧ ¬ forward_only (serve Race.turns Race.requests (start Sample.shop)).
Proof.
  assert (¬ forward Shipping Canceled) as Hnot.
  { intros [req H]. inversion H. }
  split; [by vm_compute|]. split; [by vm_compute|]. split; [exact Hnot|].
  intros H.
  assert (∃ w w' o o',
            serve Race.turns Race.requests (start Sample.shop) !! 9%nat
              = Some w
            ∧ serve Race.turns Race.requests (start Sample.shop) !! 10%nat
              = Some w'
            ∧ orders (store w) !! "o2" = Some o
            ∧ orders (store w') !! "o2" = Some o'
            ∧ Order.status o = Shipping ∧ Order.status o' = Canceled)
    as (w & w' & o & o' & Hw & Hw' & Ho & Ho' & Hs & Hs').
  { eexists _, _, _, _. split; [reflexivity|]. split; [reflexivity|].
    split; [by vm_compute|]. split; [by vm_compute|]. done. }
  destruct (H "o2" 9%nat w w' o o' Hw Hw' Ho Ho') as [E|E].
  - rewrite Hs, Hs' in E. discriminate E.
  - rewrite Hs, Hs' in E. by apply Hnot.
Qed.

(** * add-to-cart *)

Lemma running_total_sum m items t :
  (running_total m items t == t + cart_total m items)%Q.
Proof.
  unfold running_total. revert t.
  induction items as [|it items IH]; intros t; simpl.
  - ring.
  - rewrite IH. ring.
Qed.

Lemma cart_step_calm it t acc w :
  cart_valid (products (store w)) it →
  cart_step it (t, acc) calm w =
    (Value (inr ((t + Cart.quantity it
                      * price_of (products (store w)) (Cart.product it))%Q,
                 (acc ++ [line_item it])%list)),
     later 1 w).
Proof.
  intros (p & Hp & Hq). unfold cart_step, price_of.
  rewrite bind_run, Product_findById_calm, (load_Some _ _ _ Hp), Hp. simpl.
  destruct (Qlt_le_dec _ _) as [Hlt|_]; [lra|done].
Qed.

Lemma cart_loop_calm items t acc w :
  Forall (cart_valid (products (store w))) items →
  for_of items cart_step (t, acc) calm w =
    (Value (inr (running_total (products (store w)) items t,
                 (acc ++ (line_item <$> items))%list)),
     later (length items) w).
Proof.
  revert t acc w. induction items as [|it items IH]; intros t acc w Hv.
  - rewrite for_of_nil. simpl. rewrite app_nil_r. by destruct w.
  - apply Forall_cons in Hv as [Hit Hv].
    rewrite for_of_cons, bind_run, (cart_step_calm _ _ _ _ Hit).
    cbv beta iota. rewrite (IH _ _ (later 1 w)) by done.
    simpl. rewrite <- app_assoc. unfold later. simpl.
    do 3 f_equal. lia.
Qed.

(** C4. For a valid cart (the account exists, the list of lines is not
    empty, every product exists and no line asks for more than the stock),
    add-to-cart answers 201 and stores one new order: Pending, owned by the
    account, with the lines of the cart, no delivery image, and a total
    equal to the sum over the lines of price times quantity. *)
Theorem add_to_cart_total w account a items :
  accounts (store w) !! account = Some a →
  items ≠ [] →
  Forall (cart_valid (products (store w))) items →
  let id := new_order_id (store w) in
  ∃ o,
    handle (AddToCart (Some account) (Some items)) calm w =
      (Value (Some (Json 201 (OrderCreated id
         {| vnp_Amount := Order.totalAmount o;
            vnp_TxnRef := id;
            vnp_OrderInfo := "Thanh toan don hang " +:+ id;
            vnp_ReturnUrl := deep_link +:+ "?orderId=" +:+ id |}))),
       {| store := with_orders (<[id := o]> (orders (store w))) (store w);
          outbox := outbox w;
          clock := 2 + length items + clock w |})
    ∧ orders (store w) !! id = None
    ∧ Order.status o = Pending
    ∧ (Order.totalAmount o == cart_total (products (store w)) items)%Q
    ∧ Order.account o = account
    ∧ Order.items o = line_item <$> items
    ∧ Order.imageConfirmDelivered o = None.
Proof.
  intros Ha Hne Hv id.
  exists {| Order.account := account;
            Order.items := line_item <$> items;
            Order.totalAmount :=
              running_total (products (store w)) items 0;
            Order.status := Pending;
            Order.imageConfirmDelivered := None |}.
  split; [|split; [apply new_order_id_fresh|]].
  - destruct items as [|it items]; [done|]. simpl. unfold add_to_cart.
    apply try_value.
    rewrite bind_run, Account_findById_calm, (load_Some _ _ _ Ha).
    cbv beta iota.
    rewrite bind_run, (cart_loop_calm _ _ _ (later 1 w)) by done.
    cbv beta iota. rewrite bind_run. unfold new_Order. cbv beta iota.
    rewrite bind_run, Order_save_calm. simpl. do 2 f_equal. lia.
  - simpl. repeat split. rewrite running_total_sum. ring.
Qed.

(** * A Hoare logic for handlers *)

Section hoare_rules.
Context (R : relation world) `{!PreOrder R}.
Hypothesis R_later : ∀ w, R w (later 1 w).

Lemma hoare_ret {A} Pre (a : A) (Post : world → A → Prop) :
  (∀ w, Pre w → Post w a) → hoare Pre (ret a) R Post.
Proof. intros H sch w HP. split; [done|]. by apply H. Qed.

Lemma hoare_throw {A} Pre e (Post : world → A → Prop) :
  hoare Pre (throw e) R Post.
Proof. intros sch w HP. by split. Qed.

Lemma hoare_bind {A B} Pre (m : M A) (k : A → M B) P Q :
  hoare Pre m R P → (∀ a, hoare (λ w, P w a) (k a) R Q) →
  hoare Pre (m ≫= k) R Q.
Proof.
  intros Hm Hk sch w HP. rewrite bind_run.
  specialize (Hm sch w HP). destruct (m sch w) as [[a|e|] w']; simpl in *.
  - destruct Hm as [HR Ha]. destruct (Hk a sch w' Ha) as [HR' HQ].
    split; [by etrans|done].
  - done.
  - done.
Qed.

Lemma hoare_await {A} Pre (op : db → A * db) (Post : world → A → Prop) :
  (∀ w, Pre w →
     R w {| store := (op (store w)).2; outbox := outbox w;
            clock := S (clock w) |}
     ∧ Post {| store := (op (store w)).2; outbox := outbox w;
               clock := S (clock w) |} (op (store w)).1) →
  hoare Pre (await op) R Post.
Proof.
  intros Hop sch w HP. unfold await.
  destruct (sch (clock w)) eqn:E; simpl.
  - specialize (Hop w HP). by destruct (op (store w)).
  - split; [apply R_later|done].
  - split; [done|eauto].
Qed.

(** A query leaves the store alone, and its answer is about that store. *)
Lemma hoare_query {A} Pre (f : db → A) :
  hoare Pre (await (λ d, (f d, d))) R (λ w a, a = f (store w)).
Proof. apply hoare_await. intros w _. simpl. split; [apply R_later|done]. Qed.

Lemma hoare_member {A} Pre (o : option A) prop (Post : world → A → Prop) :
  (∀ w a, Pre w → o = Some a → Post w a) → hoare Pre (member o prop) R Post.
Proof.
  intros H. destruct o; simpl; [apply hoare_ret; auto|apply hoare_throw].
Qed.

Lemma hoare_for_of {A S Res} Pre (body : A → S → M (Res + S)) l s :
  (∀ x s, hoare (λ _, True) (body x s) R (λ _ _, True)) →
  hoare Pre (for_of l body s) R (λ _ _, True).
Proof.
  intros Hb sch w _. revert s w. induction l as [|x l IH]; intros s w.
  - rewrite for_of_nil. by split.
  - rewrite for_of_cons, bind_run. destruct (Hb x s sch w I) as [HR Ho].
    destruct (body x s sch w) as [[[v|s']|e|] w']; simpl in *; try done.
    destruct (IH s' w') as [HR' Ho']. split; [by etrans|done].
Qed.

Lemma hoare_try_catch {A} Pre (body : M A) h (Post : world → A → Prop) :
  hoare Pre body R Post → (∀ e, hoare (λ _, True) (h e) R Post) →
  hoare Pre (try_catch body h) R Post.
Proof.
  intros Hb Hh sch w HP. unfold try_catch.
  destruct (Hb sch w HP) as [HR Ho].
  destruct (body sch w) as [[a|e|] w']; simpl in *; try done.
  destruct (Hh e sch w' I) as [HR' Ho']. split; [by etrans|done].
Qed.

Lemma hoare_pre {A} (Pre Pre' : world → Prop) (m : M A) Post :
  (∀ w, Pre' w → Pre w) → hoare Pre m R Post → hoare Pre' m R Post.
Proof. intros H Hm sch w HP. apply Hm. by apply H. Qed.

Lemma hoare_post {A} Pre (m : M A) (Post Post' : world → A → Prop) :
  (∀ w a, Post w a → Post' w a) → hoare Pre m R Post → hoare Pre m R Post'.
Proof.
  intros H Hm sch w HP. destruct (Hm sch w HP) as [HR Ho]. split; [done|].
  destruct (m sch w).1; simpl in *; auto.
Qed.
End hoare_rules.

(** ** What stays the same in the catalogue and the accounts *)

Lemma load_inv {A} (m : gmap oid A) id d :
  load m id = Some d → _id d = id ∧ m !! id = Some (fields d).
Proof.
  unfold load. destruct (m !! id) as [x|]; [|done]. by intros [= <-].
Qed.

Lemma load_stored {A} (m : gmap oid A) id d :
  load m id = Some d → m !! _id d = Some (fields d).
Proof. intros H. by apply load_inv in H as [-> H]. Qed.

Global Instance same_product_equiv : Equivalence same_product.
Proof.
  unfold same_product. split.
  - done.
  - intros p p' []. split; congruence.
  - intros p p' p'' [] []. split; congruence.
Qed.

Global Instance same_account_equiv : Equivalence same_account.
Proof.
  unfold same_account. split.
  - done.
  - intros p p' []. split; congruence.
  - intros p p' p'' [] []. split; congruence.
Qed.

Global Instance kept_preorder {A} (same : relation A) `{!Equivalence same} :
  PreOrder (kept same).
Proof.
  split.
  - intros m id. reflexivity.
  - intros m1 m2 m3 H1 H2 id. etrans; [apply H1|apply H2].
Qed.

Lemma kept_insert {A} (same : relation A) `{!Equivalence same}
    (m : gmap oid A) id x x' :
  m !! id = Some x → same x x' → kept same m (<[id := x']> m).
Proof.
  intros Hm Hs i. destruct (decide (id = i)) as [->|Hne].
  - rewrite lookup_insert_eq, Hm. by constructor.
  - rewrite lookup_insert_ne by done. reflexivity.
Qed.

Global Instance steady_preorder : PreOrder steady.
Proof.
  split.
  - intros w. split; reflexivity.
  - intros w1 w2 w3 [] []. split; by etrans.
Qed.

Global Instance same_outbox_preorder : PreOrder same_outbox.
Proof.
  split; [done|]. unfold same_outbox. intros x y z H1 H2. congruence.
Qed.

Global Instance quiet_preorder : PreOrder quiet.
Proof.
  split.
  - intros w. split; reflexivity.
  - intros w1 w2 w3 [] []. split; by etrans.
Qed.

Lemma steady_later w : steady w (later 1 w).
Proof. split; reflexivity. Qed.

Lemma quiet_later w : quiet w (later 1 w).
Proof. split; [apply steady_later|done]. Qed.

(** No database operation touches the outbox. *)
Lemma hoare_quiet {A} Pre (op : db → A * db) Post :
  hoare Pre (await op) steady Post → hoare Pre (await op) quiet Post.
Proof.
  intros H sch w HP. destruct (H sch w HP) as [HR Ho].
  split; [|done]. split; [done|].
  unfold same_outbox, await. destruct (sch (clock w)); [|done|done].
  by destruct (op (store w)).
Qed.

Lemma steady_Order_save Pre o :
  hoare Pre (Order_save o) steady (λ _ _, True).
Proof.
  apply (hoare_await steady steady_later). intros w _. simpl.
  split; [|done]. split; reflexivity.
Qed.

Lemma steady_Product_save p :
  hoare (λ w, ∃ x, products (store w) !! _id p = Some x
                 ∧ same_product x (fields p))
    (Product_save p) steady (λ _ _, True).
Proof.
  apply (hoare_await steady steady_later). intros w (x & Hx & Hs). simpl.
  split; [|done]. split; [|reflexivity]. simpl.
  eapply kept_insert; [apply _|exact Hx|exact Hs].
Qed.

Lemma steady_Account_save a :
  hoare (λ w, ∃ x, accounts (store w) !! _id a = Some x
                 ∧ same_account x (fields a))
    (Account_save a) steady (λ _ _, True).
Proof.
  apply (hoare_await steady steady_later). intros w (x & Hx & Hs). simpl.
  split; [|done]. split; [reflexivity|]. simpl.
  eapply kept_insert; [apply _|exact Hx|exact Hs].
Qed.

Lemma same_product_sub q p : same_product p (Product.sub_quantity q p).
Proof. done. Qed.

Lemma same_product_add q p : same_product p (Product.add_quantity q p).
Proof. done. Qed.

Lemma same_account_credit q a : same_account a (Account.credit q a).
Proof. done. Qed.

Ltac hoare_done := apply hoare_ret; [apply _|by intros].

(** The stock loop of confirm-payment. *)
Lemma reduce_quantity_quiet item s :
  hoare (λ _, True) (reduce_quantity item s) quiet (λ _ _, True).
Proof.
  unfold reduce_quantity.
  eapply (hoare_bind quiet);
    [by apply (hoare_member quiet) with (Post := λ _ _, True)|].
  intros ref.
  eapply (hoare_bind quiet); [apply (hoare_query quiet quiet_later)|].
  intros [product|]; [|hoare_done].
  eapply (hoare_bind quiet); [|intros; hoare_done].
  apply hoare_quiet. eapply hoare_pre; [|apply steady_Product_save].
  simpl. intros w Hw. symmetry in Hw. apply load_stored in Hw.
  eexists. split; [exact Hw|]. apply same_product_sub.
Qed.

(** ** Every handler but cancel-order is quiet and answers *)

Ltac hoare_query := apply (hoare_query quiet quiet_later).
Ltac hoare_bind := eapply (hoare_bind quiet).
Ltac hoare_answer :=
  unfold respond; apply hoare_ret; [apply _|intros; simpl; eauto].
Ltac hoare_catch := apply (hoare_try_catch quiet); [|intros; hoare_answer].

Lemma quiet_Order_save Pre o : hoare Pre (Order_save o) quiet (λ _ _, True).
Proof. apply hoare_quiet, steady_Order_save. Qed.

Lemma get_account_quiet id :
  hoare (λ _, True) (get_account id) quiet (λ _ r, is_Some r).
Proof.
  unfold get_account. hoare_catch.
  hoare_bind; [hoare_query|]. intros [account|]; hoare_answer.
Qed.

Lemma cart_step_quiet item acc :
  hoare (λ _, True) (cart_step item acc) quiet (λ _ _, True).
Proof.
  unfold cart_step. destruct acc as [totalAmount orderItems].
  hoare_bind; [hoare_query|]. intros [product|]; [|hoare_answer].
  destruct (Qlt_le_dec _ _); hoare_answer.
Qed.

Lemma add_to_cart_quiet account items :
  hoare (λ _, True) (add_to_cart account items) quiet (λ _ r, is_Some r).
Proof.
  unfold add_to_cart. hoare_catch.
  destruct account as [account|], items as [[|item items]|];
    try hoare_answer.
  hoare_bind; [hoare_query|]. intros [accountDetails|]; [|hoare_answer].
  hoare_bind; [apply (hoare_for_of quiet); intros; apply cart_step_quiet|].
  intros [early|[totalAmount orderItems]]; [hoare_answer|].
  eapply (hoare_bind quiet) with (P := λ _ _, True).
  { unfold new_Order. intros sch w _. split; [reflexivity|exact I]. }
  intros newId. simpl.
  hoare_bind; [apply quiet_Order_save|]. intros ?. hoare_answer.
Qed.

Lemma confirm_payment_quiet orderId code :
  hoare (λ _, True) (confirm_payment orderId code) quiet (λ _ r, is_Some r).
Proof.
  unfold confirm_payment, confirm_payment_catch. hoare_catch.
  unfold confirm_payment_try. case_bool_decide; [hoare_answer|].
  hoare_bind; [hoare_query|]. intros [order|]; [|hoare_answer].
  simpl. destruct (negb _); [hoare_answer|].
  hoare_bind; [apply quiet_Order_save|]. intros ?.
  hoare_bind;
    [apply (hoare_for_of quiet); intros; apply reduce_quantity_quiet|].
  intros ?. hoare_answer.
Qed.

Lemma update_shipping_quiet orderId :
  hoare (λ _, True) (update_shipping orderId) quiet (λ _ r, is_Some r).
Proof.
  unfold update_shipping. hoare_catch.
  hoare_bind; [hoare_query|]. intros [order|]; [|hoare_answer].
  destruct (negb _); [hoare_answer|].
  hoare_bind; [apply quiet_Order_save|]. intros ?. hoare_answer.
Qed.

Lemma confirm_delivery_quiet orderId file :
  hoare (λ _, True) (confirm_delivery orderId file) quiet (λ _ r, is_Some r).
Proof.
  unfold confirm_delivery. hoare_catch.
  hoare_bind; [hoare_query|]. intros [order|]; [|hoare_answer].
  destruct (negb _); [hoare_answer|]. destruct file; [|hoare_answer].
  simpl. hoare_bind; [apply quiet_Order_save|]. intros ?. hoare_answer.
Qed.

Lemma orders_of_account_quiet id :
  hoare (λ _, True) (orders_of_account id) quiet (λ _ r, is_Some r).
Proof.
  unfold orders_of_account. hoare_catch.
  hoare_bind; [unfold Order_find; hoare_query|]. intros found. hoare_answer.
Qed.

Lemma shipper_orders_quiet :
  hoare (λ _, True) shipper_orders quiet (λ _ r, is_Some r).
Proof.
  unfold shipper_orders. hoare_catch.
  hoare_bind; [unfold Order_find; hoare_query|]. intros found. hoare_answer.
Qed.

Lemma add_balance_quiet account amount :
  hoare (λ _, True) (add_balance account amount) quiet (λ _ r, is_Some r).
Proof.
  unfold add_balance. hoare_catch.
  destruct account as [account|], amount as [amount|]; try hoare_answer.
  destruct (bad_amount _); [hoare_answer|].
  hoare_bind; [hoare_query|]. intros [accountDetails|]; [|hoare_answer].
  hoare_bind; [|intros; hoare_answer].
  apply hoare_quiet. eapply hoare_pre; [|apply steady_Account_save].
  simpl. intros w Hw. symmetry in Hw. apply load_stored in Hw.
  eexists. split; [exact Hw|]. apply same_account_credit.
Qed.

(** ** cancel-order is steady *)

Lemma restore_quantity_steady orderId refund acc its item order :
  hoare (λ _, True) (restore_quantity orderId refund acc its item order)
    steady (λ _ _, True).
Proof.
  unfold restore_quantity.
  eapply (hoare_bind steady);
    [by apply (hoare_member steady) with (Post := λ _ _, True)|].
  intros ref.
  eapply (hoare_bind steady); [apply (hoare_query steady steady_later)|].
  intros product.
  eapply (hoare_bind steady) with (P := λ _ _, True).
  { destruct product as [product|]; [|by apply hoare_ret; [apply _|]].
    eapply hoare_pre; [|apply steady_Product_save].
    simpl. intros w Hw. symmetry in Hw. apply load_stored in Hw.
    eexists. split; [exact Hw|]. apply same_product_add. }
  intros ?. simpl.
  eapply (hoare_bind steady); [apply steady_Order_save|]. intros ?.
  eapply (hoare_bind steady) with (P := λ _ _, True).
  { intros sch w _. split; [|done]. split; reflexivity. }
  intros ?. by apply hoare_ret; [apply _|].
Qed.

Lemma cancel_order_steady orderId :
  hoare (λ _, True) (cancel_order orderId) steady (λ _ _, True).
Proof.
  unfold cancel_order.
  apply (hoare_try_catch steady); [|intros; by apply hoare_ret; [apply _|]].
  eapply (hoare_bind steady); [apply (hoare_query steady steady_later)|].
  intros [order|]; [|by apply hoare_ret; [apply _|]].
  simpl. destruct (negb _); [by apply hoare_ret; [apply _|]|].
  eapply (hoare_bind steady); [apply (hoare_query steady steady_later)|].
  intros account.
  eapply (hoare_bind steady).
  { apply (hoare_member steady)
      with (Post := λ w a, accounts (store w) !! _id a = Some (fields a)).
    intros w a Hw ->. symmetry in Hw. by apply load_stored in Hw. }
  intros account'. simpl.
  eapply (hoare_bind steady) with (P := λ _ _, True).
  { eapply hoare_pre; [|apply steady_Account_save].
    simpl. intros w Hw. eexists. split; [exact Hw|].
    apply same_account_credit. }
  intros ?.
  eapply (hoare_bind steady); [apply (hoare_query steady steady_later)|].
  intros adminAccount.
  eapply (hoare_bind steady) with (P := λ _ _, True).
  { destruct adminAccount as [adminAccount|];
      [|by apply hoare_ret; [apply _|]].
    eapply hoare_pre; [|apply steady_Account_save].
    simpl. intros w Hw. symmetry in Hw.
    apply find_role_Some in Hw as [Hw _].
    eexists. split; [exact Hw|]. apply same_account_credit. }
  intros ?.
  eapply (hoare_bind steady);
    [apply (hoare_for_of steady); intros; apply restore_quantity_steady|].
  intros [sent|?]; by apply hoare_ret; [apply _|].
Qed.

(** * No exception leaves a handler *)

Lemma never_thrown {A} (body : M A) (g : exn → A) sch w e :
  (try_catch body (λ e, ret (g e)) sch w).1 ≠ Thrown e.
Proof. unfold try_catch. by destruct (body sch w) as [[?|?|] ?]. Qed.

Lemma settle {A} (m : M A) (P Q : A → Prop) sch w :
  outcome P sch (m sch w).1 → (∀ e, (m sch w).1 ≠ Thrown e) →
  (∀ a, P a → Q a) → settled Q sch (m sch w).1.
Proof.
  intros Ho Hn HPQ. destruct (m sch w).1 as [a|e|]; simpl in *; auto.
  by destruct (Hn e).
Qed.

(** X1. Every handler catches what its body throws: whatever the request
    and the schedule of database rejections, no exception leaves a handler;
    it ends without a value only when the process is interrupted, and it
    sends a response whenever it returns, cancel-order apart. *)
Theorem handlers_catch_everything req sch w :
  match (handle req sch w).1 with
  | Value r => is_Some r ∨ ∃ orderId, req = CancelOrder orderId
  | Thrown _ => False
  | Halted => ∃ n, sch n = Die
  end.
Proof.
  change (settled (λ r, is_Some r ∨ ∃ orderId, req = CancelOrder orderId)
            sch (handle req sch w).1).
  destruct req as [id|account items|orderId code|orderId|orderId file|id
                  |account amount|orderId|]; simpl.
  - eapply settle; [apply (get_account_quiet id sch w I)| |by left].
    intros e. apply never_thrown.
  - eapply settle; [apply (add_to_cart_quiet account items sch w I)| |by left].
    intros e. apply never_thrown.
  - eapply settle;
      [apply (confirm_payment_quiet orderId code sch w I)| |by left].
    intros e. apply never_thrown.
  - eapply settle; [apply (update_shipping_quiet orderId sch w I)| |by left].
    intros e. apply never_thrown.
  - eapply settle;
      [apply (confirm_delivery_quiet orderId file sch w I)| |by left].
    intros e. apply never_thrown.
  - eapply settle; [apply (orders_of_account_quiet id sch w I)| |by left].
    intros e. apply never_thrown.
  - eapply settle;
      [apply (add_balance_quiet account amount sch w I)| |by left].
    intros e. apply never_thrown.
  - eapply settle; [apply (cancel_order_steady orderId sch w I)| |].
    + intros e. apply never_thrown.
    + intros r _. right. by exists orderId.
  - eapply settle; [apply (shipper_orders_quiet sch w I)| |by left].
    intros e. apply never_thrown.
Qed.

(** * The catalogue and the accounts *)

Lemma after_steady req sch w : steady w (after req sch w).
Proof.
  unfold after.
  destruct req as [id|account items|orderId code|orderId|orderId file|id
                  |account amount|orderId|]; simpl.
  - apply (get_account_quiet id sch w I).
  - apply (add_to_cart_quiet account items sch w I).
  - apply (confirm_payment_quiet orderId code sch w I).
  - apply (update_shipping_quiet orderId sch w I).
  - apply (confirm_delivery_quiet orderId file sch w I).
  - apply (orders_of_account_quiet id sch w I).
  - apply (add_balance_quiet account amount sch w I).
  - apply (cancel_order_steady orderId sch w I).
  - apply (shipper_orders_quiet sch w I).
Qed.

Lemma after_all_steady rs w : steady w (after_all rs w).
Proof.
  revert w. induction rs as [|[req sch] rs IH]; intros w; simpl.
  - reflexivity.
  - etrans; [apply after_steady|apply IH].
Qed.

(** X2. No sequence of requests, under any schedules, adds or removes a
    product or changes the name or the price of one: the handlers only ever
    write the quantity in stock. *)
Theorem catalogue_is_steady rs w id :
  match products (store w) !! id, products (store (after_all rs w)) !! id with
  | Some p, Some p' =>
      Product.name p' = Product.name p ∧ Product.price p' = Product.price p
  | None, None => True
  | _, _ => False
  end.
Proof.
  destruct (after_all_steady rs w) as [H _]. specialize (H id).
  by destruct H.
Qed.

(** X3. No sequence of requests, under any schedules, adds or removes an
    account or changes the address or the role of one: the handlers only
    ever write the balance. *)
Theorem accounts_are_steady rs w id :
  match accounts (store w) !! id, accounts (store (after_all rs w)) !! id with
  | Some a, Some a' =>
      Account.email a' = Account.email a ∧ Account.role a' = Account.role a
  | None, None => True
  | _, _ => False
  end.
Proof.
  destruct (after_all_steady rs w) as [_ H]. specialize (H id).
  by destruct H.
Qed.

(** * Mail *)


(** * What a request writes to an order *)

Ltac written o' :=
  right; left; eexists _, _, o';
  split; [eassumption|]; split; [done|]; simpl;
  match goal with H : Order.status _ = _ |- _ => rewrite H end;
  split; [constructor|]; unfold rewrites; simpl; auto.

Lemma update_shipping_write orderId sch w :
  order_write (UpdateShipping orderId) (orders (store w))
    (orders (store (update_shipping orderId sch w).2)).
Proof.
  unfold update_shipping, Order_findById, Order_save, load.
  destruct (orders (store w) !! orderId) as [o|] eqn:Ho;
    unfold_monad; crunch; try by left.
  written (Order.set_status Shipping o).
Qed.

Lemma confirm_delivery_write orderId file sch w :
  order_write (ConfirmDelivery orderId file) (orders (store w))
    (orders (store (confirm_delivery orderId file sch w).2)).
Proof.
  unfold confirm_delivery, Order_findById, Order_save, load.
  destruct (orders (store w) !! orderId) as [o|] eqn:Ho, file as [file|];
    unfold_monad; crunch; try by left.
  right; left. eexists _, _, _.
  split; [exact Ho|]. split; [done|]. simpl.
  match goal with H : Order.status _ = _ |- _ => rewrite H end.
  split; [constructor|]. unfold rewrites. simpl. auto.
Qed.

Lemma confirm_payment_write orderId code sch w :
  order_write (ConfirmPayment orderId code) (orders (store w))
    (orders (store (confirm_payment orderId code sch w).2)).
Proof.
  unfold confirm_payment, confirm_payment_try, confirm_payment_catch.
  unfold Order_findById_populate, Order_save, load.
  case_bool_decide; [by left|].
  destruct (orders (store w) !! orderId) as [o|] eqn:Ho;
    unfold_monad; crunch; try by left.
  all: simpl in *.
  all: right; left; exists orderId, o, (Order.set_status Paid o).
  all: split; [done|]; split; [congruence|]; simpl.
  all: match goal with H : Order.status _ = _ |- _ => rewrite H end.
  all: split; [constructor|]; unfold rewrites; simpl; auto.
Qed.

Lemma cancel_order_write orderId sch w :
  order_write (CancelOrder orderId) (orders (store w))
    (orders (store (cancel_order orderId sch w).2)).
Proof.
  unfold cancel_order, Order_findById_populate, Account_findById.
  unfold Account_save, Account_findOne_role, load.
  destruct (orders (store w) !! orderId) as [o|] eqn:Ho;
    [destruct (Order.items o) as [|it rest] eqn:Hi|];
    unfold_monad; crunch; try by left.
  all: rewrite ?fmap_nil, ?for_of_nil, ?fmap_cons, ?for_of_cons.
  all: unfold restore_quantity, Product_findById, Product_save, Order_save.
  all: unfold sendMail, populate, load; unfold_monad; crunch; try by left.
  all: simpl in *.
  all: right; left; exists orderId, o, (Order.set_status Canceled o).
  all: split; [done|]; split; [done|]; simpl.
  all: match goal with H : Order.status _ = _ |- _ => rewrite H end.
  all: split; [constructor|]; unfold rewrites; simpl; auto.
Qed.

Lemma add_to_cart_write account items sch w :
  order_write (AddToCart account items) (orders (store w))
    (orders (store (add_to_cart account items sch w).2)).
Proof.
  destruct (add_to_cart_effect account items sch w)
    as [E|[(id & o & o' & _ & _ & Hp)|(id & o' & Hc & H0 & E & _)]].
  - by left.
  - inversion Hp.
  - right; right. by exists id, o'.
Qed.

Lemma handle_write req sch w :
  order_write req (orders (store w)) (orders (store (after req sch w))).
Proof.
  unfold after. destruct req; simpl.
  - left. apply get_account_effect.
  - apply add_to_cart_write.
  - apply confirm_payment_write.
  - apply update_shipping_write.
  - apply confirm_delivery_write.
  - left. apply orders_of_account_effect.
  - left. apply add_balance_effect.
  - apply cancel_order_write.
  - left. apply shipper_orders_effect.
Qed.

Lemma after_rewrites req sch w id o :
  orders (store w) !! id = Some o →
  ∃ o', orders (store (after req sch w)) !! id = Some o'
    ∧ Order.account o' = Order.account o
    ∧ Order.items o' = Order.items o
    ∧ Order.totalAmount o' = Order.totalAmount o
    ∧ (terminal (Order.status o) → o' = o).
Proof.
  intros H.
  destruct (handle_write req sch w)
    as [E|[(id0 & o0 & o1 & H0 & E & Hp & Hr)|(id0 & o1 & Hc & H0 & E)]];
    rewrite E; clear E.
  - exists o. by rewrite H.
  - destruct (decide (id0 = id)) as [->|Hne].
    + rewrite lookup_insert_eq. exists o1. rewrite H in H0.
      injection H0 as <-. destruct Hr as (? & ? & ? & _).
      repeat split; try done.
      intros [Ht|Ht]; rewrite Ht in Hp; inversion Hp.
    + rewrite lookup_insert_ne by done. exists o. by rewrite H.
  - destruct (decide (id0 = id)) as [->|Hne]; [congruence|].
    rewrite lookup_insert_ne by done. exists o. by rewrite H.
Qed.

(** X4. The owner, the line items and the total of an order are written
    once, when add-to-cart creates it: over any sequence of requests, under
    any schedules, a stored order stays stored with the same account, the
    same items and the same totalAmount. *)
Theorem order_contents_are_fixed rs w id o :
  orders (store w) !! id = Some o →
  ∃ o', orders (store (after_all rs w)) !! id = Some o'
    ∧ Order.account o' = Order.account o
    ∧ Order.items o' = Order.items o
    ∧ Order.totalAmount o' = Order.totalAmount o.
Proof.
  revert w o. induction rs as [|[req sch] rs IH]; intros w o H; simpl.
  - by exists o.
  - destruct (after_rewrites req sch w id o H) as (o1 & H1 & Ea & Ei & Et & _).
    destruct (IH _ _ H1) as (o' & H' & Ea' & Ei' & Et').
    exists o'. repeat split; congruence.
Qed.

(** X5. Delivered and Canceled are final: over any sequence of requests,
    under any schedules, an order stored with one of these statuses stays
    exactly as it is. *)
Theorem terminal_orders_never_change rs w id o :
  orders (store w) !! id = Some o →
  terminal (Order.status o) →
  orders (store (after_all rs w)) !! id = Some o.
Proof.
  revert w. induction rs as [|[req sch] rs IH]; intros w H Ht; simpl.
  - done.
  - apply IH; [|done].
    destruct (after_rewrites req sch w id o H) as (o1 & H1 & _ & _ & _ & E).
    by rewrite H1, (E Ht).
Qed.

(** * Mail *)


(** * update-shipping, confirm-delivery and add-balance, undisturbed *)

(** X7. update-shipping answers 404 for an unknown order and 400 for an
    order that is not Paid, changing nothing; on a Paid order it answers 200
    and stores the order with status Shipping, its account, line items,
    total and image as they were, changing nothing else. *)
Theorem update_shipping_contract w orderId :
  handle (UpdateShipping orderId) calm w =
    match orders (store w) !! orderId with
    | None => (Value (Some (Json 404 (Message "Order not found."))), later 1 w)
    | Some o =>
        if Status_eqb (Order.status o) Paid then
          (Value (Some (Json 200
             (ShippingUpdated "Order status updated to Shipping." orderId))),
           {| store :=
                with_orders
                  (<[orderId :=
                       {| Order.account := Order.account o;
                          Order.items := Order.items o;
                          Order.totalAmount := Order.totalAmount o;
                          Order.status := Shipping;
                          Order.imageConfirmDelivered :=
                            Order.imageConfirmDelivered o |}]>
                     (orders (store w)))
                  (store w);
              outbox := outbox w; clock := 2 + clock w |})
        else
          (Value (Some (Json 400
             (Message "Only paid orders can be marked as shipping."))),
           later 1 w)
    end.
Proof.
  simpl. unfold update_shipping.
  destruct (orders (store w) !! orderId) as [o|] eqn:Ho.
  - destruct (Status_eqb (Order.status o) Paid) eqn:Es; apply try_value.
    + rewrite bind_run, Order_findById_calm, (load_Some _ _ _ Ho). simpl.
      rewrite Es. simpl. by rewrite bind_run, Order_save_calm.
    + rewrite bind_run, Order_findById_calm, (load_Some _ _ _ Ho). simpl.
      by rewrite Es.
  - apply try_value.
    by rewrite bind_run, Order_findById_calm, (load_None _ _ Ho).
Qed.

(** X8. confirm-delivery of a Shipping order with an uploaded file answers
    200, stores the order as Delivered with the address of the file under
    the base URL as its image, and changes nothing else; the [imagePath] of
    the response is not the stored address: it carries the base URL twice. *)
Theorem confirm_delivery_contract w orderId o file :
  orders (store w) !! orderId = Some o →
  Order.status o = Shipping →
  let image := baseUrl +:+ "/uploads/deliveryConfirmation/" +:+ filename file in
  handle (ConfirmDelivery orderId (Some file)) calm w =
    (Value (Some (Json 200
       (DeliveryConfirmed "Order delivery confirmed." orderId
          (baseUrl +:+ image)))),
     {| store :=
          with_orders
            (<[orderId :=
                 {| Order.account := Order.account o;
                    Order.items := Order.items o;
                    Order.totalAmount := Order.totalAmount o;
                    Order.status := Delivered;
                    Order.imageConfirmDelivered := Some image |}]>
               (orders (store w)))
            (store w);
        outbox := outbox w; clock := 2 + clock w |}).
Proof.
  intros Ho Hs image. simpl. unfold confirm_delivery. apply try_value.
  rewrite bind_run, Order_findById_calm, (load_Some _ _ _ Ho). simpl.
  rewrite Hs. simpl. by rewrite bind_run, Order_save_calm.
Qed.

(** X9. add-balance answers 400 when the account or the amount is missing
    or the amount is not positive, and 404 for an unknown account, changing
    nothing; otherwise it answers 200 and stores the account with the
    amount added to its balance, its address and role as they were,
    changing nothing else. *)
Theorem add_balance_contract w account amount :
  handle (AddBalance account amount) calm w =
    match account, amount with
    | Some id, Some q =>
        if Qle_bool q 0 then
          (Value (Some (Json 400 (Message "Invalid request."))), w)
        else
          match accounts (store w) !! id with
          | None =>
              (Value (Some (Json 404 (Message "Account not found."))),
               later 1 w)
          | Some a =>
              (Value (Some (Json 200 (Message "Balance added successfully."))),
               {| store :=
                    with_accounts
                      (<[id :=
                           {| Account.email := Account.email a;
                              Account.balance := (Account.balance a + q)%Q;
                              Account.role := Account.role a |}]>
                         (accounts (store w)))
                      (store w);
                  outbox := outbox w; clock := 2 + clock w |})
          end
    | _, _ => (Value (Some (Json 400 (Message "Invalid request."))), w)
    end.
Proof.
  simpl. unfold add_balance.
  destruct account as [id|], amount as [q|]; try (by apply try_value).
  simpl. destruct (Qle_bool q 0); [by apply try_value|].
  destruct (accounts (store w) !! id) as [a|] eqn:Ha; apply try_value.
  - rewrite bind_run, Account_findById_calm, (load_Some _ _ _ Ha). simpl.
    by rewrite bind_run, Account_save_calm.
  - by rewrite bind_run, Account_findById_calm, (load_None _ _ Ha).
Qed.

(** * add-to-cart: rejected carts, and what a cart reserves *)

Lemma cart_step_missing it acc w :
  products (store w) !! Cart.product it = None →
  cart_step it acc calm w =
    (Value (inl (Json 404 (ProductNotFound (Cart.product it)))), later 1 w).
Proof.
  intros Hp. unfold cart_step. destruct acc as [t acc].
  by rewrite bind_run, Product_findById_calm, (load_None _ _ Hp).
Qed.

Lemma cart_step_short it acc p w :
  products (store w) !! Cart.product it = Some p →
  (Product.quantity p < Cart.quantity it)%Q →
  cart_step it acc calm w =
    (Value (inl (Json 400
       (NotEnoughStock (Product.name p) (Product.quantity p)
          (Cart.quantity it)))), later 1 w).
Proof.
  intros Hp Hq. unfold cart_step. destruct acc as [t acc].
  rewrite bind_run, Product_findById_calm, (load_Some _ _ _ Hp). simpl.
  destruct (Qlt_le_dec _ _) as [_|Hle]; [done|lra].
Qed.

(** X10. add-to-cart stops at the first line of the cart that is not
    valid: it answers 404 when the product of that line does not exist and
    400, with the name of the product, its stock and the quantity asked,
    when the line asks for more than the stock; the lines after it are not
    looked at, and nothing is stored. *)
Theorem add_to_cart_first_bad_line w account a pre bad rest :
  accounts (store w) !! account = Some a →
  Forall (cart_valid (products (store w))) pre →
  ¬ cart_valid (products (store w)) bad →
  handle (AddToCart (Some account) (Some (pre ++ bad :: rest)%list)) calm w =
    (Value (Some
       match products (store w) !! Cart.product bad with
       | None => Json 404 (ProductNotFound (Cart.product bad))
       | Some p =>
           Json 400
             (NotEnoughStock (Product.name p) (Product.quantity p)
                (Cart.quantity bad))
       end),
     later (2 + length pre) w).
Proof.
  intros Ha Hpre Hbad. simpl. unfold add_to_cart.
  assert (∃ x l, (pre ++ bad :: rest)%list = x :: l) as (x & l & E).
  { destruct pre; simpl; eauto. }
  rewrite E. apply try_value.
  rewrite bind_run, Account_findById_calm, (load_Some _ _ _ Ha).
  cbv beta iota. rewrite <- E. clear E x l.
  rewrite bind_run, for_of_app.
  rewrite (cart_loop_calm _ _ _ (later 1 w)) by done. cbv beta iota.
  rewrite for_of_cons, bind_run.
  destruct (products (store w) !! Cart.product bad) as [p|] eqn:Hp.
  - rewrite (cart_step_short _ _ p); [| done |].
    + simpl. unfold later. simpl. do 2 f_equal. lia.
    + destruct (Qlt_le_dec (Product.quantity p) (Cart.quantity bad)); [done|].
      destruct Hbad. by exists p.
  - rewrite cart_step_missing by done.
    simpl. unfold later. simpl. do 2 f_equal. lia.
Qed.

Lemma cart_step_line it acc sch w t' acc' w' :
  cart_step it acc sch w = (Value (inr (t', acc')), w') →
  length acc' = S (length acc.2).
Proof.
  unfold cart_step, Product_findById, load. destruct acc as [t acc].
  unfold_monad. simpl. destruct (sch (clock w)); simpl; [|done..].
  destruct (products (store w) !! Cart.product it); simpl; [|done].
  destruct (Qlt_le_dec _ _); [done|]. intros H. inversion H; subst.
  rewrite length_app. simpl. lia.
Qed.

Lemma cart_loop_lines items acc sch w t' acc' w' :
  for_of items cart_step acc sch w = (Value (inr (t', acc')), w') →
  length acc' = (length acc.2 + length items)%nat.
Proof.
  revert acc w. induction items as [|it items IH]; intros acc w.
  - rewrite for_of_nil. intros H. inversion H; subst. simpl. lia.
  - rewrite for_of_cons, bind_run.
    destruct (cart_step it acc sch w) as [[[v|[t1 acc1]]|e|] w1] eqn:E;
      try done.
    intros H. apply IH in H. apply cart_step_line in E. simpl in *. lia.
Qed.

(** What add-to-cart does to the store: nothing, or one new order, owned
    by a stored account and with as many line items as the cart has
    lines. *)
Lemma add_to_cart_store account items sch w :
  store (add_to_cart account items sch w).2 = store w
  ∨ ∃ o,
      store (add_to_cart account items sch w).2 =
        with_orders (<[new_order_id (store w) := o]> (orders (store w)))
          (store w)
      ∧ is_Some (accounts (store w) !! Order.account o)
      ∧ Order.items o ≠ [].
Proof.
  unfold add_to_cart, Account_findById, new_Order, Order_save, load.
  destruct account as [account|], items as [[|item items]|];
    unfold_monad; crunch; try by left.
  all: simpl in *.
  all: match goal with
       | |- context [for_of ?l cart_step ?s ?sch ?w] =>
           pose proof (cart_loop_same_store l s sch w) as Hloop;
           destruct (for_of l cart_step s sch w) as [[[?|[? ?]]|?|] w1] eqn:El
       end.
  all: simpl in *; rewrite ?Hloop; crunch; try by left.
  all: simpl in *; rewrite ?Hloop; try by left.
  right. eexists. split; [done|]. simpl. split; [eauto|].
  apply cart_loop_lines in El. simpl in El. intros ->. done.
Qed.

(** X11. add-to-cart checks the stock but reserves none of it: whatever
    the cart and the schedule, the products and the accounts are exactly
    as before, and so is every order that was stored. *)
Theorem add_to_cart_reserves_nothing account items sch w :
  products (store (after (AddToCart account items) sch w)) = products (store w)
  ∧ accounts (store (after (AddToCart account items) sch w)) =
      accounts (store w)
  ∧ orders (store w) ⊆ orders (store (after (AddToCart account items) sch w)).
Proof.
  unfold after. simpl.
  destruct (add_to_cart_store account items sch w) as [->|(o & -> & _)];
    [done|].
  simpl. repeat split. apply insert_subseteq, new_order_id_fresh.
Qed.

(** * Orders stay well formed *)

Lemma after_well_formed req sch w :
  well_formed (store w) → well_formed (store (after req sch w)).
Proof.
  intros Hwf.
  assert (∀ o, is_Some (accounts (store w) !! Order.account o) →
            is_Some (accounts (store (after req sch w)) !! Order.account o))
    as Hacc.
  { intros o [a Ha]. destruct (after_steady req sch w) as [_ H].
    specialize (H (Order.account o)). rewrite Ha in H.
    inversion H; eauto. }
  assert (map_Forall
    (λ _ o, is_Some (accounts (store (after req sch w)) !! Order.account o)
            ∧ Order.items o ≠ []) (orders (store w))) as Hkept.
  { eapply map_Forall_impl; [exact Hwf|]. intros id o [Ho ?]. auto. }
  unfold well_formed.
  destruct req as [id|account items|orderId code|orderId|orderId file|id
                  |account amount|orderId|].
  2: { revert Hacc Hkept. unfold after. simpl.
       destruct (add_to_cart_store account items sch w)
         as [->|(o & -> & Ho & Hi)]; [done|].
       simpl. intros Hacc Hkept. by apply map_Forall_insert_2. }
  all: match goal with |- context [after ?r _ _] =>
         destruct (handle_write r sch w)
           as [E|[(id0 & o0 & o1 & H0 & E & _ & Hr)|(id0 & o1 & Hc & _)]]
       end.
  all: try (destruct Hc as (? & ? & Hc); discriminate Hc).
  all: rewrite E; try done.
  all: apply map_Forall_insert_2; [|done].
  all: destruct Hr as (Ea & Ei & _); rewrite Ea, Ei.
  all: by apply (Hkept id0).
Qed.

(** X12. Orders stay well formed: when every stored order has its owner
    among the accounts and at least one line item, this is still so after
    any sequence of requests, under any schedules. *)
Theorem orders_stay_well_formed rs w :
  well_formed (store w) → well_formed (store (after_all rs w)).
Proof.
  revert w. induction rs as [|[req sch] rs IH]; intros w H; simpl; [done|].
  by apply IH, after_well_formed.
Qed.

(** * cancel-order: the cases next to the refund *)


(** X14. cancel-order on a Paid order whose owner is not among the
    accounts fails on reading the balance of the missing account: it
    answers 500 with the TypeError, and nothing is stored or sent. *)
Theorem cancel_order_without_owner w orderId o :
  orders (store w) !! orderId = Some o →
  Order.status o = Paid →
  accounts (store w) !! Order.account o = None →
  handle (CancelOrder orderId) calm w =
    (Value (Some (Json 500
       (ServerError "Lỗi máy chủ" (null_property_message "balance")))),
     later 2 w).
Proof.
  intros Ho Hs Ha. simpl. unfold cancel_order, try_catch.
  rewrite bind_run, Order_findById_populate_calm, (load_Some _ _ _ Ho). simpl.
  rewrite Hs. simpl.
  rewrite bind_run, Account_findById_calm. simpl.
  rewrite (load_None _ _ Ha). by rewrite bind_run.
Qed.

Lemma find_role_only r (m : gmap oid Account.t) id a :
  m !! id = Some a → Account.role a = r →
  (∀ id' b, m !! id' = Some b → Account.role b = r → id' = id) →
  find_role r m = Some (Doc id a).
Proof.
  intros Ha Hr Honly. destruct (find_role r m) as [d|] eqn:E.
  - destruct (find_role_Some _ _ _ E) as [Hl' Hd'].
    pose proof (Honly _ _ Hl' Hd') as Hid. destruct d as [id' b]. simpl in *.
    subst id'. congruence.
  - destruct (find_role_None _ _ _ _ E Ha). done.
Qed.

(** X15. When the owner of the order is the only admin account,
    cancel-order credits that account twice, as owner and as admin: its
    balance grows by the whole total of the order, not by half of it. *)
Theorem cancel_order_of_the_admin w orderId o a it rest x :
  orders (store w) !! orderId = Some o →
  Order.status o = Paid →
  accounts (store w) !! Order.account o = Some a →
  Order.items o = it :: rest →
  products (store w) !! Item.product it = Some x →
  Account.role a = admin →
  (∀ id b, accounts (store w) !! id = Some b → Account.role b = admin →
     id = Order.account o) →
  let after := handle (CancelOrder orderId) calm w in
  after.1 = Value (Some (Json 200 (Refunded refund_message (refund_of o))))
  ∧ accounts (store after.2) =
      <[Order.account o :=
          Account.credit (refund_of o) (Account.credit (refund_of o) a)]>
        (accounts (store w))
  ∧ ∃ a', accounts (store after.2) !! Order.account o = Some a'
        ∧ (Account.balance a' == Account.balance a + Order.totalAmount o)%Q.
Proof.
  intros Ho Hs Ha Hi Hx Hr Honly after.
  assert (accounts (store after.2) =
    <[Order.account o :=
        Account.credit (refund_of o) (Account.credit (refund_of o) a)]>
      (accounts (store w)) ∧
    after.1 = Value (Some (Json 200 (Refunded refund_message (refund_of o)))))
    as [E ->].
  { unfold after. rewrite (cancel_order_paid _ _ _ _ Ho Hs Ha). cbv zeta.
    rewrite Hi, fmap_cons, for_of_cons, bind_run.
    erewrite restore_quantity_calm by done. simpl. split; [|done].
    unfold refunded_accounts.
    rewrite (find_role_only admin _ (Order.account o)
               (Account.credit (refund_of o) a)).
    - simpl. by rewrite insert_insert_eq.
    - by rewrite lookup_insert_eq.
    - done.
    - intros id' b Hb Hrb.
      destruct (decide (id' = Order.account o)) as [|Hne]; [done|].
      rewrite lookup_insert_ne in Hb by done. eauto. }
  split; [done|]. split; [done|].
  eexists. split; [by rewrite E, lookup_insert_eq|].
  simpl. unfold refund_of. ring.
Qed.

(** * The two listings *)

Lemma Order_find_calm keep w :
  Order_find keep calm w =
    (Value ((λ kv, Doc kv.1 kv.2) <$>
              filter (λ kv, keep kv.2 = true) (map_to_list (orders (store w)))),
     later 1 w).
Proof. unfold Order_find. by rewrite await_calm. Qed.

Lemma found_exactly (keep : Order.t → bool) (m : gmap oid Order.t) d :
  d ∈ ((λ kv, Doc kv.1 kv.2) <$>
         filter (λ kv : oid * Order.t, keep kv.2 = true) (map_to_list m))
  ↔ m !! _id d = Some (fields d) ∧ keep (fields d) = true.
Proof.
  rewrite list_elem_of_fmap. split.
  - intros ([id o] & -> & H). apply list_elem_of_filter in H as [Hk H].
    by apply elem_of_map_to_list in H.
  - intros [H Hk]. exists (_id d, fields d). split; [by destruct d|].
    apply list_elem_of_filter. split; [done|].
    by apply elem_of_map_to_list.
Qed.

Lemma found_NoDup (keep : Order.t → bool) (m : gmap oid Order.t) :
  NoDup ((λ kv, Doc kv.1 kv.2) <$>
           filter (λ kv : oid * Order.t, keep kv.2 = true) (map_to_list m)).
Proof.
  apply NoDup_fmap_2.
  - intros [? ?] [? ?] [= -> ->]. done.
  - apply NoDup_filter, NoDup_map_to_list.
Qed.

Lemma Order_find_exact keep w :
  ∃ found,
    Order_find keep calm w = (Value found, later 1 w)
    ∧ NoDup found
    ∧ ∀ d, d ∈ found ↔
        orders (store w) !! _id d = Some (fields d) ∧ keep (fields d) = true.
Proof.
  eexists. split; [apply Order_find_calm|]. split.
  - apply found_NoDup.
  - apply found_exactly.
Qed.

(** X16. The orders of an account: the handler answers 200 with exactly
    the stored orders whose account is the one asked for, each once, and
    changes nothing. *)
Theorem orders_of_account_is_exact w id :
  ∃ found,
    handle (OrdersOfAccount id) calm w =
      (Value (Some (Json 200 (OrderList found))), later 1 w)
    ∧ NoDup found
    ∧ ∀ d, d ∈ found ↔
        orders (store w) !! _id d = Some (fields d)
        ∧ Order.account (fields d) = id.
Proof.
  destruct (Order_find_exact (λ o, bool_decide (Order.account o = id)) w)
    as (found & E & Hnd & Hin).
  exists found. split; [|split; [done|]].
  - simpl. unfold orders_of_account. apply try_value.
    by rewrite bind_run, E.
  - intros d. rewrite Hin. by rewrite bool_decide_eq_true.
Qed.

(** X17. The orders for the shipper: the handler answers 200, and the ids
    of the orders it lists are exactly the ids of the stored orders that
    are Paid, Shipping or Delivered; a Pending or Canceled order is never
    listed.  (The order of the list and the product details the listed
    line items are populated with are not part of this model.) *)
Theorem shipper_orders_are_the_open_deliveries w :
  ∃ found,
    handle ShipperOrders calm w =
      (Value (Some (Json 200 (OrderList found))), later 1 w)
    ∧ ∀ id, id ∈ _id <$> found ↔
        ∃ o, orders (store w) !! id = Some o
           ∧ Order.status o ∈ [Paid; Shipping; Delivered].
Proof.
  destruct (Order_find_exact for_shipper w) as (found & E & Hnd & Hin).
  exists found. split.
  - simpl. unfold shipper_orders. apply try_value.
    by rewrite bind_run, E.
  - assert (∀ o, for_shipper o = true ↔
              Order.status o ∈ [Paid; Shipping; Delivered]) as Hkeep.
    { intros o. unfold for_shipper. rewrite !elem_of_cons, elem_of_nil.
      destruct (Order.status o); intuition congruence. }
    intros id. rewrite list_elem_of_fmap. split.
    + intros (d & -> & Hd). apply Hin in Hd as [Hd Hk].
      exists (fields d). split; [done|]. by apply Hkeep.
    + intros (o & Ho & Hk). exists (Doc id o). split; [done|].
      apply Hin. split; [done|]. by apply Hkeep.
Qed.

(** * The message of the error redirect *)

Lemma hex_digit_unreserved n : (n < 16)%N → is_unreserved (hex_digit n) = true.
Proof.
  intros H. destruct n as [|p]; [done|].
  do 4 (destruct p as [p|p|]; try done); lia.
Qed.

Lemma hex_digit_inj n m :
  (n < 16)%N → (m < 16)%N → hex_digit n = hex_digit m → n = m.
Proof.
  intros Hn Hm H. apply (f_equal N_of_ascii) in H. revert H.
  unfold hex_digit.
  destruct (N.ltb_spec n 10), (N.ltb_spec m 10);
    rewrite !N_ascii_embedding by lia; lia.
Qed.

Lemma percent_is_reserved : is_unreserved "%" = false.
Proof. done. Qed.

Lemma encodeURIComponent_chars s c :
  c ∈ list_ascii_of_string (encodeURIComponent s) →
  is_unreserved c = true ∨ c = "%"%char.
Proof.
  induction s as [|c0 s IH]; simpl; [by intros ?%elem_of_nil|].
  pose proof (N_ascii_bounded c0) as Hb.
  destruct (is_unreserved c0) eqn:E0; simpl; rewrite !elem_of_cons.
  - intros [->|H]; auto.
  - intros [->|[->|[->|H]]]; auto; left; apply hex_digit_unreserved.
    + apply N.Div0.div_lt_upper_bound. lia.
    + by apply N.mod_lt.
Qed.

Lemma encodeURIComponent_inj s1 s2 :
  encodeURIComponent s1 = encodeURIComponent s2 → s1 = s2.
Proof.
  revert s2. induction s1 as [|c1 s1 IH]; intros [|c2 s2]; simpl; try done.
  - by destruct (is_unreserved c2).
  - by destruct (is_unreserved c1).
  - pose proof (N_ascii_bounded c1) as H1.
    pose proof (N_ascii_bounded c2) as H2.
    destruct (is_unreserved c1) eqn:E1, (is_unreserved c2) eqn:E2.
    + intros [= -> H]. f_equal. by apply IH.
    + intros [= -> H]. by rewrite percent_is_reserved in E1.
    + intros [= <- H]. by rewrite percent_is_reserved in E2.
    + intros [= Hhi Hlo H].
      apply hex_digit_inj in Hhi;
        [|apply N.Div0.div_lt_upper_bound; lia..].
      apply hex_digit_inj in Hlo; [|by apply N.mod_lt..].
      f_equal; [|by apply IH].
      rewrite <- (ascii_N_embedding c1), <- (ascii_N_embedding c2).
      f_equal.
      rewrite (N.div_mod (N_of_ascii c1) 16), (N.div_mod (N_of_ascii c2) 16)
        by done.
      by rewrite Hhi, Hlo.
Qed.

(** X18. The message of an exception cannot break the link of the error
    redirect of confirm-payment: the [message] parameter it is put in holds
    only unreserved characters and percent signs, so none of [&], [=], [#],
    [?] or a space, and exceptions with different messages give different
    links. *)
Theorem caught_message_is_escaped e :
  (∀ sch w,
     confirm_payment_catch e sch w =
       (Value (Some (Redirect
          (deep_link +:+ "?status=error&message=" +:+
             encodeURIComponent (message e)))), w))
  ∧ (∀ c, c ∈ list_ascii_of_string (encodeURIComponent (message e)) →
       (is_unreserved c = true ∨ c = "%"%char)
       ∧ c ∉ list_ascii_of_string "&=#? ")
  ∧ (∀ e', encodeURIComponent (message e') = encodeURIComponent (message e) →
       e' = e).
Proof.
  split; [done|]. split.
  - intros c Hc. apply encodeURIComponent_chars in Hc. split; [done|].
    intros Hin. destruct Hc as [Hc| ->].
    + simpl in Hin. rewrite !elem_of_cons in Hin.
      destruct Hin as [->|[->|[->|[->|[->|Hin]]]]]; try done.
      by apply elem_of_nil in Hin.
    + simpl in Hin. rewrite !elem_of_cons in Hin.
      destruct Hin as [?|[?|[?|[?|[?|Hin]]]]]; try done.
      by apply elem_of_nil in Hin.
  - intros e' H. apply encodeURIComponent_inj in H.
    destruct e, e'. simpl in H. by subst.
Qed.

(** * A rejected database operation *)

(** X19. When the database rejects the first operation of a handler, the
    handler answers with its [catch] block: a 500 carrying the message of
    the rejection, for confirm-payment the error redirect carrying the
    escaped message; nothing is stored or sent. *)
Theorem rejected_query_is_reported req msg sch w :
  reaches_database req = true →
  sch (clock w) = Reject msg →
  handle req sch w = (Value (Some (failure req msg)), later 1 w).
Proof.
  intros Hreq Hsch.
  destruct req as [id|[account|] [[|item items]|]|orderId code|orderId
                  |orderId file|id|[account|] [amount|]|orderId|];
    try done; simpl in *.
  - unfold get_account, Account_findById. unfold_monad. by rewrite Hsch.
  - unfold add_to_cart, Account_findById. unfold_monad. by rewrite Hsch.
  - apply bool_decide_eq_true in Hreq as ->.
    unfold confirm_payment, confirm_payment_try, confirm_payment_catch.
    unfold Order_findById_populate. unfold_monad. simpl. by rewrite Hsch.
  - unfold update_shipping, Order_findById. unfold_monad. by rewrite Hsch.
  - unfold confirm_delivery, Order_findById. unfold_monad. by rewrite Hsch.
  - unfold orders_of_account, Order_find. unfold_monad. by rewrite Hsch.
  - unfold add_balance, Account_findById. unfold_monad. simpl.
    apply negb_true_iff in Hreq. rewrite Hreq. by rewrite Hsch.
  - unfold cancel_order, Order_findById_populate. unfold_monad.
    by rewrite Hsch.
  - unfold shipper_orders, Order_find. unfold_monad. by rewrite Hsch.
Qed.

(** * Requests in a row *)




(** X21. Paying and then canceling an order of one line puts the stock
    back: the product of the line has the stock it had before the payment,
    with its name and price, every other product is untouched, and the
    order ends Canceled. *)
Theorem pay_then_cancel_restores_stock w orderId o a it x :
  orders (store w) !! orderId = Some o →
  Order.status o = Pending →
  accounts (store w) !! Order.account o = Some a →
  Order.items o = [it] →
  products (store w) !! Item.product it = Some x →
  let paid := handle (ConfirmPayment orderId (Some "00")) calm w in
  let canceled := handle (CancelOrder orderId) calm paid.2 in
  canceled.1 =
    Value (Some (Json 200 (Refunded refund_message (refund_of o))))
  ∧ (∃ x', products (store canceled.2) !! Item.product it = Some x'
       ∧ Product.name x' = Product.name x
       ∧ Product.price x' = Product.price x
       ∧ (Product.quantity x' == Product.quantity x)%Q)
  ∧ (∀ p, p ≠ Item.product it →
       products (store canceled.2) !! p = products (store w) !! p)
  ∧ orders (store canceled.2) =
      <[orderId := Order.set_status Canceled (Order.set_status Paid o)]>
        (orders (store w)).
Proof.
  intros Ho Hs Ha Hi Hx paid canceled. unfold canceled, paid.
  assert (all_in_stock (products (store w)) (Order.items o)) as Hin.
  { rewrite Hi. repeat constructor. by exists x. }
  rewrite (confirm_payment_pending_in_stock _ _ _ Ho Hs Hin).
  rewrite Hi. cbn [fst snd foldl]. unfold take_stock. rewrite Hx.
  erewrite (cancel_order_paid orderId (Order.set_status Paid o) a);
    [|by simpl; rewrite ?lookup_insert_eq..]. cbv zeta. simpl.
  rewrite Hi, fmap_cons, for_of_cons, bind_run.
  erewrite restore_quantity_calm;
    [|by simpl; rewrite lookup_insert_eq..].
  simpl. split; [done|]. split; [|split].
  - rewrite lookup_insert_eq. eexists. split; [done|]. simpl.
    repeat split. ring.
  - intros p Hp. by rewrite !lookup_insert_ne.
  - by rewrite insert_insert_eq.
Qed.

Lemma add_to_cart_calm w account a items :
  accounts (store w) !! account = Some a →
  items ≠ [] →
  Forall (cart_valid (products (store w))) items →
  handle (AddToCart (Some account) (Some items)) calm w =
    (Value (Some (Json 201 (OrderCreated (new_order_id (store w))
       {| vnp_Amount := running_total (products (store w)) items 0;
          vnp_TxnRef := new_order_id (store w);
          vnp_OrderInfo := "Thanh toan don hang " +:+ new_order_id (store w);
          vnp_ReturnUrl :=
            deep_link +:+ "?orderId=" +:+ new_order_id (store w) |}))),
     {| store :=
          with_orders
            (<[new_order_id (store w) :=
                 {| Order.account := account;
                    Order.items := line_item <$> items;
                    Order.totalAmount :=
                      running_total (products (store w)) items 0;
                    Order.status := Pending;
                    Order.imageConfirmDelivered := None |}]>
               (orders (store w)))
            (store w);
        outbox := outbox w;
        clock := 2 + length items + clock w |}).
Proof.
  intros Ha Hne Hv. destruct items as [|it items]; [done|]. simpl.
  unfold add_to_cart. apply try_value.
  rewrite bind_run, Account_findById_calm, (load_Some _ _ _ Ha).
  cbv beta iota.
  rewrite bind_run, (cart_loop_calm _ _ _ (later 1 w)) by done.
  cbv beta iota. rewrite bind_run. unfold new_Order. cbv beta iota.
  rewrite bind_run, Order_save_calm. simpl. do 2 f_equal. lia.
Qed.

(** X22. A cart does not reserve what it asks for: after a valid cart
    was turned into an order, the same cart is still valid, and sending it
    again gives a second order under another id, with the same line items
    and the same total, whatever the stock. *)
Theorem add_to_cart_twice w account a items :
  accounts (store w) !! account = Some a →
  items ≠ [] →
  Forall (cart_valid (products (store w))) items →
  let first := handle (AddToCart (Some account) (Some items)) calm w in
  let second := handle (AddToCart (Some account) (Some items)) calm first.2 in
  let id1 := new_order_id (store w) in
  let id2 := new_order_id (store first.2) in
  id1 ≠ id2
  ∧ Forall (cart_valid (products (store first.2))) items
  ∧ ∃ o, orders (store second.2) = <[id2 := o]> (<[id1 := o]> (orders (store w)))
       ∧ Order.status o = Pending
       ∧ Order.items o = line_item <$> items
       ∧ ∃ amount,
           second.1 =
             Value (Some (Json 201 (OrderCreated id2
               {| vnp_Amount := amount;
                  vnp_TxnRef := id2;
                  vnp_OrderInfo := "Thanh toan don hang " +:+ id2;
                  vnp_ReturnUrl := deep_link +:+ "?orderId=" +:+ id2 |})))
           ∧ Order.totalAmount o = amount.
Proof.
  intros Ha Hne Hv first second id1 id2.
  assert (first = _) as E1 by exact (add_to_cart_calm _ _ _ _ Ha Hne Hv).
  assert (products (store first.2) = products (store w)) as Ep
    by by rewrite E1.
  assert (accounts (store first.2) !! account = Some a) as Ha'
    by by rewrite E1.
  assert (Forall (cart_valid (products (store first.2))) items) as Hv'
    by by rewrite Ep.
  assert (second = _) as E2 by exact (add_to_cart_calm _ _ _ _ Ha' Hne Hv').
  split; [|split; [done|]].
  - intros E. pose proof (new_order_id_fresh (store first.2)) as Hf.
    fold id2 in Hf. rewrite <- E in Hf. revert Hf. rewrite E1. simpl.
    fold id1. by rewrite lookup_insert_eq.
  - eexists. rewrite E2. simpl. fold id2. rewrite Ep.
    split; [by rewrite E1|]. split; [done|]. split; [done|]. eauto.
Qed.

(** * Handlers with a single write *)

(** X23. update-shipping, confirm-delivery and add-balance write one
    document, once, and nothing is left half done: whatever the schedule,
    the store is as it was, or it differs in that one document, which holds
    the whole change (the order with status Shipping; the order with
    status Delivered and the address of the file; the account with the
    amount added to its balance).  A handler that answered 200 has made
    that change. *)
Theorem single_write_leaves_no_partial_state sch w :
  (∀ orderId,
     let r := handle (UpdateShipping orderId) sch w in
     let written :=
       ∃ o, orders (store w) !! orderId = Some o
          ∧ Order.status o = Paid
          ∧ store r.2 =
              with_orders
                (<[orderId :=
                     {| Order.account := Order.account o;
                        Order.items := Order.items o;
                        Order.totalAmount := Order.totalAmount o;
                        Order.status := Shipping;
                        Order.imageConfirmDelivered :=
                          Order.imageConfirmDelivered o |}]>
                   (orders (store w)))
                (store w) in
     (store r.2 = store w ∨ written)
     ∧ (∀ body, r.1 = Value (Some (Json 200 body)) → written))
  ∧ (∀ orderId file,
       let r := handle (ConfirmDelivery orderId file) sch w in
       let written :=
         ∃ o f, orders (store w) !! orderId = Some o
            ∧ Order.status o = Shipping
            ∧ file = Some f
            ∧ store r.2 =
                with_orders
                  (<[orderId :=
                       {| Order.account := Order.account o;
                          Order.items := Order.items o;
                          Order.totalAmount := Order.totalAmount o;
                          Order.status := Delivered;
                          Order.imageConfirmDelivered :=
                            Some ("https://mma301-project-be.onrender.com/uploads/deliveryConfirmation/"
                                    +:+ filename f) |}]>
                     (orders (store w)))
                  (store w) in
       (store r.2 = store w ∨ written)
       ∧ (∀ body, r.1 = Value (Some (Json 200 body)) → written))
  ∧ (∀ account amount,
       let r := handle (AddBalance account amount) sch w in
       let written :=
         ∃ id q a, account = Some id ∧ amount = Some q
            ∧ (0 < q)%Q
            ∧ accounts (store w) !! id = Some a
            ∧ store r.2 =
                with_accounts
                  (<[id :=
                       {| Account.email := Account.email a;
                          Account.balance := (Account.balance a + q)%Q;
                          Account.role := Account.role a |}]>
                     (accounts (store w)))
                  (store w) in
       (store r.2 = store w ∨ written)
       ∧ (∀ body, r.1 = Value (Some (Json 200 body)) → written)).
Proof.
  split; [|split].
  - intros orderId. simpl.
    unfold update_shipping, Order_findById, Order_save, load.
    destruct (orders (store w) !! orderId) as [o|] eqn:Ho;
      unfold_monad; crunch; try (split; [by left|done]).
    split; [right|intros ? _]; by exists o.
  - intros orderId file. simpl.
    unfold confirm_delivery, Order_findById, Order_save, load.
    destruct (orders (store w) !! orderId) as [o|] eqn:Ho, file as [f|];
      unfold_monad; crunch; try (split; [by left|done]).
    split; [right|intros ? _]; by exists o, f.
  - intros account amount. simpl.
    unfold add_balance, bad_amount, Account_findById, Account_save, load.
    destruct account as [id|], amount as [q|];
      unfold_monad; crunch; try (split; [by left|done]).
    destruct (Qle_bool q 0) eqn:Eq; crunch; try (split; [by left|done]).
    assert (0 < q)%Q as Hq.
    { apply Qnot_le_lt. intros Hle. apply Qle_bool_iff in Hle. congruence. }
    split; [right|intros ? _]; by eexists id, q, _.
Qed.

(** * The properties on the sample shop *)

Import Sample.

Lemma shop_basket_in_stock : all_in_stock (products shop) basket.
Proof. repeat constructor; by eexists. Defined.

(** Canceling [o1], which is Pending. *)
Lemma cancel_order_not_paid_witness :
  orders (store (start shop)) !! "o1" = Some (order basket 29 Pending)
  ∧ Order.status (order basket 29 Pending) ≠ Paid
  ∧ handle (CancelOrder "o1") calm (start shop) =
      (Value (Some (Json 400 (Message "Only paid orders can be canceled."))),
       later 1 (start shop)).
Proof.
  assert (orders (store (start shop)) !! "o1" = Some (order basket 29 Pending))
    as H1 by reflexivity.
  assert (Order.status (order basket 29 Pending) ≠ Paid) as H2 by discriminate.
  split; [exact H1|]. split; [exact H2|].
  exact (cancel_order_not_paid (start shop) "o1" _ H1 H2).
Defined.

(** Confirming the delivery of [o2], which is Paid, without a file. *)
Lemma confirm_delivery_without_file_witness :
  orders (store (start shop)) !! "o2" = Some (order basket 29 Paid)
  ∧ handle (ConfirmDelivery "o2" None) calm (start shop) =
      (Value (Some (Json 400 (Message
         "Only shipping orders can be confirmed as delivered."))),
       later 1 (start shop)).
Proof.
  assert (orders (store (start shop)) !! "o2" = Some (order basket 29 Paid))
    as H1 by reflexivity.
  split; [exact H1|].
  exact (confirm_delivery_without_file (start shop) "o2" _ H1).
Defined.

(** The cart of two soaps and three serums costs 29. *)
Lemma add_to_cart_total_witness :
  accounts (store (start shop)) !! "a1" = Some ann
  ∧ cart ≠ []
  ∧ Forall (cart_valid (products (store (start shop)))) cart
  ∧ ∃ o,
      orders (store (after (AddToCart (Some "a1") (Some cart)) calm
                       (start shop)))
        !! new_order_id shop = Some o
      ∧ Order.status o = Pending
      ∧ (Order.totalAmount o == 29)%Q.
Proof.
  assert (accounts (store (start shop)) !! "a1" = Some ann) as H1
    by reflexivity.
  assert (cart ≠ []) as H2 by discriminate.
  assert (Forall (cart_valid (products (store (start shop)))) cart) as H3.
  { repeat constructor.
    - exists soap. split; [reflexivity|]. by vm_compute.
    - exists serum. split; [reflexivity|]. by vm_compute. }
  split; [exact H1|]. split; [exact H2|]. split; [exact H3|].
  destruct (add_to_cart_total (start shop) "a1" ann cart H1 H2 H3)
    as (o & Hrun & _ & Hs & Ht & _).
  exists o. unfold after. rewrite Hrun. simpl.
  split; [apply lookup_insert_eq|]. split; [exact Hs|].
  rewrite Ht. reflexivity.
Defined.

(** Confirming the payment of [o1], interrupted at its second and at its
    fifth database operation. *)
Lemma confirm_payment_interrupted_witness :
  orders (store (start shop)) !! "o1" = Some (order basket 29 Pending)
  ∧ all_in_stock (products (store (start shop))) basket
  ∧ handle (ConfirmPayment "o1" (Some "00")) (dies_at 1) (start shop) =
      (Halted, later 1 (start shop))
  ∧ handle (ConfirmPayment "o1" (Some "00")) (dies_at 4) (start shop) =
      (Halted,
       {| store :=
            {| accounts := accounts shop;
               products := foldl take_stock (products shop) (take 1 basket);
               orders :=
                 <["o1" := order basket 29 Paid]> (orders shop) |};
          outbox := [];
          clock := 4 |}).
Proof.
  assert (orders (store (start shop)) !! "o1" = Some (order basket 29 Pending))
    as H1 by reflexivity.
  split; [exact H1|]. split; [exact shop_basket_in_stock|].
  destruct (confirm_payment_interrupted (start shop) "o1" _ H1 eq_refl)
    as (Hsave & _ & Hloop).
  split; [exact Hsave|].
  assert (1 < length (Order.items (order basket 29 Pending)))%nat as Hk
    by (simpl; lia).
  assert (0 ≤ 1)%nat as Hb by lia.
  exact (Hloop shop_basket_in_stock 1 0 Hk Hb).
Defined.

(** Confirming the payment of [o3]: eight soaps ordered, five in stock. *)
Lemma confirm_payment_oversells_witness :
  orders (store (start shop)) !! "o3" =
    Some (order [ {| Item.product := "p1"; Item.quantity := 8 |} ] 80 Pending)
  ∧ products (store (start shop)) !! "p1" = Some soap
  ∧ (handle (ConfirmPayment "o3" (Some "00")) calm (start shop)).1 =
      Value (Some (Redirect (success_url "o3")))
  ∧ ∃ x', products
            (store (handle (ConfirmPayment "o3" (Some "00")) calm
                      (start shop)).2) !! "p1" = Some x'
      ∧ (Product.quantity x' < 0)%Q.
Proof.
  assert (orders (store (start shop)) !! "o3" =
            Some (order [ {| Item.product := "p1"; Item.quantity := 8 |} ]
                    80 Pending)) as H1 by reflexivity.
  assert (products (store (start shop)) !! "p1" = Some soap) as H2
    by reflexivity.
  split; [exact H1|]. split; [exact H2|].
  assert (all_in_stock (products (store (start shop)))
            [ {| Item.product := "p1"; Item.quantity := 8 |} ]) as H3
    by (repeat constructor; by eexists).
  assert (Product.quantity soap
            < ordered_qty "p1"
                [ {| Item.product := "p1"; Item.quantity := 8 |} ])%Q as H4
    by (by vm_compute).
  destruct (confirm_payment_oversells (start shop) "o3" _ "p1" soap
              H1 eq_refl H3 H2 H4) as (Hresp & x' & Hx' & _ & Hneg).
  split; [exact Hresp|]. exists x'. split; [exact Hx'|exact Hneg].
Defined.

(** Canceling [o2]: the soaps come back, the serums do not. *)
Lemma cancel_order_restores_first_item_only_witness :
  orders (store (start shop)) !! "o2" = Some (order basket 29 Paid)
  ∧ accounts (store (start shop)) !! "a1" = Some ann
  ∧ products (store (start shop)) !! "p1" = Some soap
  ∧ (handle (CancelOrder "o2") calm (start shop)).1 =
      Value (Some (Json 200 (Refunded refund_message (29 * (1 # 2))%Q)))
  ∧ orders (store (handle (CancelOrder "o2") calm (start shop)).2) !! "o2" =
      Some (order basket 29 Canceled)
  ∧ products (store (handle (CancelOrder "o2") calm (start shop)).2) !! "p1" =
      Some (Product.add_quantity 2 soap)
  ∧ products (store (handle (CancelOrder "o2") calm (start shop)).2) !! "p2" =
      Some serum.
Proof.
  assert (orders (store (start shop)) !! "o2" = Some (order basket 29 Paid))
    as H1 by reflexivity.
  assert (accounts (store (start shop)) !! "a1" = Some ann) as H2
    by reflexivity.
  assert (products (store (start shop)) !! "p1" = Some soap) as H3
    by reflexivity.
  split; [exact H1|]. split; [exact H2|]. split; [exact H3|].
  destruct (cancel_order_restores_first_item_only (start shop) "o2" _ ann
              {| Item.product := "p1"; Item.quantity := 2 |}
              [ {| Item.product := "p2"; Item.quantity := 3 |} ] soap
              H1 eq_refl H2 eq_refl H3)
    as (Hresp & _ & Horders & Hproducts & Hother & _).
  split; [exact Hresp|].
  split; [rewrite Horders; apply lookup_insert_eq|].
  split; [rewrite Hproducts; apply lookup_insert_eq|].
  rewrite (Hother "p2") by discriminate. reflexivity.
Defined.

(** Confirming the payment of [o4] and canceling [o5], whose first product
    is gone. *)
Lemma missing_product_is_an_error_witness :
  orders (store (start shop)) !! "o4" = Some (order gone 9 Pending)
  ∧ orders (store (start shop)) !! "o5" = Some (order gone 9 Paid)
  ∧ products (store (start shop)) !! "p9" = None
  ∧ handle (ConfirmPayment "o4" (Some "00")) calm (start shop) =
      (Value (Some (Redirect
         (error_url "Cannot%20read%20properties%20of%20null%20(reading%20'_id')"))),
       {| store :=
            {| accounts := accounts shop;
               products := products shop;
               orders := <["o4" := order gone 9 Paid]> (orders shop) |};
          outbox := [];
          clock := 2 |})
  ∧ handle (CancelOrder "o5") calm (start shop) =
      (Value (Some (Json 500
         (ServerError "Lỗi máy chủ"
            "Cannot read properties of null (reading '_id')"))),
       refunded_world (order gone 9 Paid) ann (start shop)).
Proof.
  assert (orders (store (start shop)) !! "o4" = Some (order gone 9 Pending))
    as H1 by reflexivity.
  assert (orders (store (start shop)) !! "o5" = Some (order gone 9 Paid))
    as H2 by reflexivity.
  assert (products (store (start shop)) !! "p9" = None) as H3 by reflexivity.
  split; [exact H1|]. split; [exact H2|]. split; [exact H3|].
  destruct missing_product_is_an_error as [Hconfirm Hcancel].
  split.
  - exact (Hconfirm (start shop) "o4" _ []
             {| Item.product := "p9"; Item.quantity := 1 |}
             [ {| Item.product := "p2"; Item.quantity := 3 |} ]
             H1 eq_refl eq_refl (Forall_nil_2 _) H3).
  - exact (Hcancel (start shop) "o5" _ ann
             {| Item.product := "p9"; Item.quantity := 1 |}
             [ {| Item.product := "p2"; Item.quantity := 3 |} ]
             H2 eq_refl eq_refl eq_refl H3).
Defined.

(** [o1] is paid and then canceled. *)
Lemma order_status_workflow_witness :
  orders (store (after (ConfirmPayment "o1" (Some "00")) calm (start shop)))
    !! "o1" = Some (order basket 29 Paid)
  ∧ performs (ConfirmPayment "o1" (Some "00")) Pending Paid
  ∧ ∃ o',
      orders
        (store (after_all [ (ConfirmPayment "o1" (Some "00"), calm);
                            (CancelOrder "o1", calm) ] (start shop)))
        !! "o1" = Some o'
      ∧ rtc forward Pending (Order.status o').
Proof.
  assert (orders (store (after (ConfirmPayment "o1" (Some "00")) calm
                           (start shop))) !! "o1"
          = Some (order basket 29 Paid)) as H1 by (by vm_compute).
  assert (orders (store (start shop)) !! "o1" = Some (order basket 29 Pending))
    as H0 by reflexivity.
  destruct order_status_workflow as (Hstep & _ & _ & Hrun).
  split; [exact H1|]. split.
  - pose proof (Hstep _ _ _ _ _ H1) as Hs. rewrite H0 in Hs.
    destruct Hs as [Hs|Hs]; [discriminate Hs|exact Hs].
  - exact (Hrun [ (ConfirmPayment "o1" (Some "00"), calm);
                  (CancelOrder "o1", calm) ] (start shop) "o1" _ H0).
Defined.

(** The four error redirects of confirm-payment. *)
Lemma confirm_payment_always_redirects_witness :
  handle (ConfirmPayment "o1" (Some "24")) calm (start shop) =
    (Value (Some (Redirect
       "exp://192.168.1.4:8081/--/cart?status=error&message=Payment%20unsuccessful")),
     start shop)
  ∧ handle (ConfirmPayment "o0" (Some "00")) calm (start shop) =
      (Value (Some (Redirect
         "exp://192.168.1.4:8081/--/cart?status=error&message=Order%20not%20found")),
       later 1 (start shop))
  ∧ handle (ConfirmPayment "o2" (Some "00")) calm (start shop) =
      (Value (Some (Redirect
         "exp://192.168.1.4:8081/--/cart?status=error&message=Order%20already%20processed")),
       later 1 (start shop))
  ∧ (handle (ConfirmPayment "o4" (Some "00")) calm (start shop)).1 =
      Value (Some (Redirect
        "exp://192.168.1.4:8081/--/cart?status=error&message=Cannot%20read%20properties%20of%20null%20(reading%20'_id')")).
Proof.
  split; [|split; [|split]].
  - apply (proj1 (proj2 (confirm_payment_always_redirects "o1" (Some "24")))).
    discriminate.
  - apply (proj1 (proj2 (proj2
             (confirm_payment_always_redirects "o0" (Some "00"))))).
    reflexivity.
  - apply (proj2 (proj2 (proj2
             (confirm_payment_always_redirects "o2" (Some "00"))))
             (start shop) (order basket 29 Paid)); [reflexivity|discriminate].
  - pose proof (proj1 (confirm_payment_always_redirects "o4" (Some "00"))
                  calm (start shop)) as H.
    set (t := confirm_payment_try "o4" (Some "00") calm (start shop)) in H.
    assert (t = (Thrown (Error (null_property_message "_id")), t.2)) as Et
      by (by vm_compute).
    rewrite Et in H. rewrite H. reflexivity.
Defined.

(** * The further properties on the samples *)

(** The contents of [o1] while it is paid and its cancellation is
    interrupted. *)
Lemma order_contents_are_fixed_witness :
  orders (store (start shop)) !! "o1" = Some (order basket 29 Pending)
  ∧ ∃ o',
      orders
        (store (after_all [ (ConfirmPayment "o1" (Some "00"), calm);
                            (CancelOrder "o1", dies_at 8) ] (start shop)))
        !! "o1" = Some o'
      ∧ Order.account o' = "a1"
      ∧ Order.items o' = basket
      ∧ Order.totalAmount o' = 29%Q.
Proof.
  assert (orders (store (start shop)) !! "o1" = Some (order basket 29 Pending))
    as H1 by reflexivity.
  split; [exact H1|].
  exact (order_contents_are_fixed
           [ (ConfirmPayment "o1" (Some "00"), calm);
             (CancelOrder "o1", dies_at 8) ] (start shop) "o1" _ H1).
Defined.

(** Nothing moves the delivered order [o9]. *)
Lemma terminal_orders_never_change_witness :
  orders (store (start Scene.depot)) !! "o9"
    = Some (Scene.basket_of "a3" Delivered)
  ∧ terminal Delivered
  ∧ orders
      (store (after_all [ (CancelOrder "o9", calm);
                          (ConfirmPayment "o9" (Some "00"), calm);
                          (UpdateShipping "o9", calm);
                          (ConfirmDelivery "o9" (Some Scene.photo), calm) ]
                (start Scene.depot)))
      !! "o9" = Some (Scene.basket_of "a3" Delivered).
Proof.
  assert (orders (store (start Scene.depot)) !! "o9"
          = Some (Scene.basket_of "a3" Delivered)) as H1 by reflexivity.
  assert (terminal Delivered) as H2 by (by left).
  split; [exact H1|]. split; [exact H2|].
  exact (terminal_orders_never_change
           [ (CancelOrder "o9", calm);
             (ConfirmPayment "o9" (Some "00"), calm);
             (UpdateShipping "o9", calm);
             (ConfirmDelivery "o9" (Some Scene.photo), calm) ]
           (start Scene.depot) "o9" _ H1 H2).
Defined.

(** Confirming the delivery of [o8] with a photo. *)
Lemma confirm_delivery_contract_witness :
  orders (store (start Scene.depot)) !! "o8"
    = Some (Scene.basket_of "a3" Shipping)
  ∧ (handle (ConfirmDelivery "o8" (Some Scene.photo)) calm
       (start Scene.depot)).1 =
      Value (Some (Json 200
        (DeliveryConfirmed "Order delivery confirmed." "o8"
           "https://mma301-project-be.onrender.comhttps://mma301-project-be.onrender.com/uploads/deliveryConfirmation/photo.jpg"))).
Proof.
  assert (orders (store (start Scene.depot)) !! "o8"
          = Some (Scene.basket_of "a3" Shipping)) as H1 by reflexivity.
  split; [exact H1|].
  rewrite (confirm_delivery_contract (start Scene.depot) "o8" _ Scene.photo
             H1 eq_refl).
  reflexivity.
Defined.

(** The greedy cart is refused at its second line. *)
Lemma add_to_cart_first_bad_line_witness :
  accounts (store (start shop)) !! "a1" = Some ann
  ∧ handle (AddToCart (Some "a1") (Some Scene.greedy)) calm (start shop) =
      (Value (Some (Json 400 (NotEnoughStock "Soap" 5 9))),
       later 3 (start shop)).
Proof.
  assert (accounts (store (start shop)) !! "a1" = Some ann) as H1
    by reflexivity.
  assert (Forall (cart_valid (products (store (start shop))))
            [ {| Cart.product := "p1"; Cart.quantity := 2 |} ]) as H2.
  { repeat constructor. exists soap. split; [reflexivity|]. by vm_compute. }
  assert (¬ cart_valid (products (store (start shop)))
              {| Cart.product := "p1"; Cart.quantity := 9 |}) as H3.
  { intros (p & Hp & Hq). injection Hp as <-. by vm_compute in Hq. }
  split; [exact H1|].
  exact (add_to_cart_first_bad_line (start shop) "a1" ann _ _
           [ {| Cart.product := "p9"; Cart.quantity := 1 |} ] H1 H2 H3).
Defined.

(** The sample shop is well formed, and stays so. *)
Lemma orders_stay_well_formed_witness :
  well_formed (store (start shop))
  ∧ well_formed
      (store (after_all [ (AddToCart (Some "a1") (Some cart), calm);
                          (ConfirmPayment "o1" (Some "00"), dies_at 3);
                          (CancelOrder "o2", calm) ] (start shop))).
Proof.
  assert (well_formed (store (start shop))) as H1.
  { unfold well_formed. simpl.
    repeat (apply map_Forall_insert_2;
            [split; [by eexists|discriminate]|]).
    apply map_Forall_empty. }
  split; [exact H1|].
  exact (orders_stay_well_formed
           [ (AddToCart (Some "a1") (Some cart), calm);
             (ConfirmPayment "o1" (Some "00"), dies_at 3);
             (CancelOrder "o2", calm) ] (start shop) H1).
Defined.

(** Canceling [o7], whose owner is gone. *)
Lemma cancel_order_without_owner_witness :
  orders (store (start Scene.depot)) !! "o7"
    = Some (Scene.basket_of "a0" Paid)
  ∧ accounts (store (start Scene.depot)) !! "a0" = None
  ∧ handle (CancelOrder "o7") calm (start Scene.depot) =
      (Value (Some (Json 500
         (ServerError "Lỗi máy chủ"
            "Cannot read properties of null (reading 'balance')"))),
       later 2 (start Scene.depot)).
Proof.
  assert (orders (store (start Scene.depot)) !! "o7"
          = Some (Scene.basket_of "a0" Paid)) as H1 by reflexivity.
  assert (accounts (store (start Scene.depot)) !! "a0" = None) as H2
    by reflexivity.
  split; [exact H1|]. split; [exact H2|].
  exact (cancel_order_without_owner (start Scene.depot) "o7" _ H1 eq_refl H2).
Defined.

(** The administrator cancels [o6], an order of 29, and is credited 29. *)
Lemma cancel_order_of_the_admin_witness :
  orders (store (start Scene.depot)) !! "o6"
    = Some (Scene.basket_of "a3" Paid)
  ∧ accounts (store (start Scene.depot)) !! "a3" = Some Scene.boss
  ∧ ∃ a', accounts (store (handle (CancelOrder "o6") calm
                             (start Scene.depot)).2) !! "a3" = Some a'
        ∧ (Account.balance a' == 29)%Q.
Proof.
  assert (orders (store (start Scene.depot)) !! "o6"
          = Some (Scene.basket_of "a3" Paid)) as H1 by reflexivity.
  assert (accounts (store (start Scene.depot)) !! "a3" = Some Scene.boss)
    as H2 by reflexivity.
  assert (products (store (start Scene.depot)) !! "p1" = Some soap) as H3
    by reflexivity.
  assert (∀ id b, accounts (store (start Scene.depot)) !! id = Some b →
            Account.role b = admin → id = "a3") as H4.
  { intros id b Hb _. simpl in Hb.
    by apply lookup_singleton_Some in Hb as [<- _]. }
  split; [exact H1|]. split; [exact H2|].
  destruct (cancel_order_of_the_admin (start Scene.depot) "o6" _ Scene.boss
              {| Item.product := "p1"; Item.quantity := 2 |}
              [ {| Item.product := "p2"; Item.quantity := 3 |} ] soap
              H1 eq_refl H2 eq_refl H3 eq_refl H4)
    as (_ & _ & a' & Ha' & Hb).
  exists a'. split; [exact Ha'|]. rewrite Hb. reflexivity.
Defined.

(** The database is down when update-shipping looks for [o2]. *)
Lemma rejected_query_is_reported_witness :
  handle (UpdateShipping "o2") (rejects_first "ECONNRESET") (start shop) =
    (Value (Some (Json 500 (ServerError "Server error." "ECONNRESET"))),
     later 1 (start shop)).
Proof.
  exact (rejected_query_is_reported (UpdateShipping "o2") "ECONNRESET"
           (rejects_first "ECONNRESET") (start shop) eq_refl eq_refl).
Defined.


(** [o3], eight soaps out of a stock of five, is paid and canceled: the
    stock is five again. *)
Lemma pay_then_cancel_restores_stock_witness :
  orders (store (start shop)) !! "o3" =
    Some (order [ {| Item.product := "p1"; Item.quantity := 8 |} ] 80 Pending)
  ∧ ∃ x',
      products
        (store (handle (CancelOrder "o3") calm
                  (handle (ConfirmPayment "o3" (Some "00")) calm
                     (start shop)).2).2) !! "p1" = Some x'
      ∧ (Product.quantity x' == 5)%Q.
Proof.
  assert (orders (store (start shop)) !! "o3" =
    Some (order [ {| Item.product := "p1"; Item.quantity := 8 |} ] 80 Pending))
    as H1 by reflexivity.
  assert (accounts (store (start shop)) !! "a1" = Some ann) as H2
    by reflexivity.
  assert (products (store (start shop)) !! "p1" = Some soap) as H3
    by reflexivity.
  split; [exact H1|].
  destruct (pay_then_cancel_restores_stock (start shop) "o3" _ ann
              {| Item.product := "p1"; Item.quantity := 8 |} soap
              H1 eq_refl H2 eq_refl H3)
    as (_ & (x' & Hx' & _ & _ & Hq) & _).
  exists x'. split; [exact Hx'|exact Hq].
Defined.

(** The sample cart is sent twice. *)
Lemma add_to_cart_twice_witness :
  accounts (store (start shop)) !! "a1" = Some ann
  ∧ cart ≠ []
  ∧ new_order_id (store (start shop)) ≠
      new_order_id
        (store (handle (AddToCart (Some "a1") (Some cart)) calm
                  (start shop)).2)
  ∧ Forall
      (cart_valid
         (products
            (store (handle (AddToCart (Some "a1") (Some cart)) calm
                      (start shop)).2))) cart.
Proof.
  assert (accounts (store (start shop)) !! "a1" = Some ann) as H1
    by reflexivity.
  assert (cart ≠ []) as H2 by discriminate.
  assert (Forall (cart_valid (products (store (start shop)))) cart) as H3.
  { repeat constructor.
    - exists soap. split; [reflexivity|]. by vm_compute.
    - exists serum. split; [reflexivity|]. by vm_compute. }
  split; [exact H1|]. split; [exact H2|].
  destruct (add_to_cart_twice (start shop) "a1" ann cart H1 H2 H3)
    as (Hne & Hv & _).
  split; [exact Hne|exact Hv].
Defined.
